(** * Food-truck search service: model of main.go and its properties

    The development follows main.go function by function:
    - [foodTruckInfo], the record held per permit row;
    - [readFoodTruckData], the loader of the permit file;
    - [getWalkableTrucks], the batched walking-distance filter;
    - [searchFoodTrucks], the keyword / proximity / newest-first pipeline.

    Go values are represented as follows.  A [string] is a sequence of
    bytes.  [int] and [uint] are the 64-bit types of the usual targets: an
    [int] is a [Z] in [-2^63, 2^63), a [uint] a [Z] in [0, 2^64), and the
    conversion [uint(x)] is written out as a remainder.  Slice lengths and
    indices are [nat].  A [panic] is an outcome of its own, distinct from a
    returned [error].  Printing under [debugging] has no effect on any
    result and is left out. *)

From Stdlib Require Import ZArith List String Ascii Bool Lia.
From Stdlib Require Import Sorting.Sorted Sorting.Permutation.
From Stdlib Require Import Floats.SpecFloat.
From stdpp Require Import base list strings sorting gmap.

Local Open Scope Z_scope.
Local Open Scope string_scope.
Local Open Scope list_scope.

(** ** Errors, panics and outcomes *)

(** The [error] values that flow through the program: the [*strconv.NumError]
    built by [strconv.Atoi] (its [Func] and [Num] fields), and any other
    error, produced by the file system or by the distance service. *)
Inductive error : Type :=
| NumError (Func Num : string)
| OtherError (msg : string).

(** What a [panic] carries: the error handed to [panic(err)], or the
    run-time error of an index or slice expression out of range. *)
Inductive panicValue : Type :=
| PanicError (e : error)
| RuntimeError (msg : string).

Inductive outcome (A : Type) : Type :=
| Returned (a : A)
| Panicked (p : panicValue).
Arguments Returned {A} a.
Arguments Panicked {A} p.

(** ** The record *)

Record foodTruckInfo : Type := mkFoodTruckInfo {
  Name : string;
  FacilityType : string;
  Address : string;
  Status : string;
  FoodItems : string;
  LatLon : string;
  Received : Z
}.

Definition uint_modulus : Z := 2 ^ 64.
Definition int_min : Z := - 2 ^ 63.
Definition int_max : Z := 2 ^ 63 - 1.

(** [uint(recv)] for an [int] [recv]. *)
Definition uint_of_int (recv : Z) : Z := recv mod uint_modulus.

(** ** The [strings] functions used by the search *)

Module strings.

(** The first loop of [strings.ToLower]: no byte of [s] reaches
    [utf8.RuneSelf], that is, [s] is made of ASCII bytes. *)
Fixpoint isASCII (s : string) : bool :=
  match s with
  | EmptyString => true
  | String c s' => (nat_of_ascii c <? 128)%nat && isASCII s'
  end.

(** [strings.ToLower] on a string of ASCII bytes: the letters [A]..[Z] move
    to [a]..[z] and every other byte is kept.  A string with a byte of 128 or
    more takes the other branch of the library function, which lowers runes
    through the Unicode tables; that branch is not modelled, and the
    statements about which records a keyword selects are made for ASCII
    terms and ASCII [FoodItems] ([isASCII]). *)
Definition lowerByte (c : ascii) : ascii :=
  let n := nat_of_ascii c in
  if ((65 <=? n) && (n <=? 90))%nat then ascii_of_nat (n + 32) else c.

Fixpoint ToLower (s : string) : string :=
  match s with
  | EmptyString => EmptyString
  | String c s' => String (lowerByte c) (ToLower s')
  end.

(** [strings.HasPrefix s prefix]: [s] begins with the bytes of [prefix]. *)
Fixpoint HasPrefix (s prefix : string) {struct prefix} : bool :=
  match prefix with
  | EmptyString => true
  | String a prefix' =>
      match s with
      | EmptyString => false
      | String b s' => Ascii.eqb a b && HasPrefix s' prefix'
      end
  end.

(** [strings.Contains s substr], that is [strings.Index s substr >= 0]:
    [substr] occurs in [s] at some byte offset. *)
Fixpoint Contains (s substr : string) : bool :=
  HasPrefix s substr
  || match s with
     | EmptyString => false
     | String _ s' => Contains s' substr
     end.

End strings.

(** ** [strconv.Atoi] *)

Module strconv.

Definition digitOf (c : ascii) : option Z :=
  let n := Z.of_nat (nat_of_ascii c) - 48 in
  if ((0 <=? n) && (n <=? 9))%Z then Some n else None.

Fixpoint parseDigits (s : string) (n : Z) : option Z :=
  match s with
  | EmptyString => Some n
  | String ch s' =>
      match digitOf ch with
      | Some d => parseDigits s' (n * 10 + d)
      | None => None
      end
  end.

Definition parseUnsigned (neg : bool) (digits : string) (s0 : string) : Z + error :=
  match digits with
  | EmptyString => inr (NumError "Atoi" s0)
  | _ =>
      match parseDigits digits 0 with
      | None => inr (NumError "Atoi" s0)
      | Some n =>
          let v := if neg then - n else n in
          if ((int_min <=? v) && (v <=? int_max))%Z then inl v
          else inr (NumError "Atoi" s0)
      end
  end.

(** [strconv.Atoi s]: an optional sign, then one or more decimal digits,
    and a value that fits an [int]; anything else is a [*NumError]. *)
Definition Atoi (s : string) : Z + error :=
  match s with
  | EmptyString => inr (NumError "Atoi" s)
  | String c rest =>
      if Ascii.eqb c "-" then parseUnsigned true rest s
      else if Ascii.eqb c "+" then parseUnsigned false rest s
      else parseUnsigned false s s
  end.

End strconv.

(** ** [readFoodTruckData] *)

(** What [os.Open] followed by [csv.NewReader(f).ReadAll()] yields for a
    file name: one of the two calls fails, or the rows of the file.  The
    reader is used as [csv.NewReader] makes it, with [FieldsPerRecord] at 0:
    it fails with [ErrFieldCount] unless every record has as many fields as
    the first one, so the rows it hands over all have the length of the
    header ([sameFieldCount]). *)
Inductive csvSource : Type :=
| OpenFails (e : error)
| ReadAllFails (e : error)
| Lines (lines : list (list string)).

(** Every data row has as many fields as the header. *)
Definition sameFieldCount (header : list string) (rows : list (list string)) : Prop :=
  Forall (fun line => length line = length header) rows.

(** [line[k]] for a row already known to have more than [k] fields. *)
Definition field (line : list string) (k : nat) : string :=
  default "" (line !! k).

(** The struct literal of the loop body. *)
Definition rowInfo (line : list string) (recv : Z) : foodTruckInfo :=
  {| Name := field line 1;
     FacilityType := field line 2;
     Address := field line 5;
     Status := field line 10;
     FoodItems := field line 11;
     LatLon := field line 14 +:+ "," +:+ field line 15;
     Received := uint_of_int recv |}.

(** The loop over [lines[1:]], with [trucksInFile] as accumulator.  Reading
    [line[20]] of a short row panics; a field [strconv.Atoi] rejects makes
    the function return [nil, err] at once. *)
Fixpoint readRows (rows : list (list string)) (trucksInFile : list foodTruckInfo)
  : outcome (list foodTruckInfo * option error) :=
  match rows with
  | [] => Returned (trucksInFile, None)
  | line :: rows' =>
      match line !! 20%nat with
      | None => Panicked (RuntimeError "index out of range")
      | Some f =>
          match strconv.Atoi f with
          | inr err => Returned ([], Some err)
          | inl recv =>
              let info := rowInfo line recv in
              if String.eqb (Status info) "APPROVED"
              then readRows rows' (trucksInFile ++ [info])
              else readRows rows' trucksInFile
          end
      end
  end.

Definition readFoodTruckData (fs : string -> csvSource) (filename : string)
  : outcome (list foodTruckInfo * option error) :=
  match fs filename with
  | OpenFails err => Returned ([], Some err)
  | ReadAllFails err => Returned ([], Some err)
  | Lines [] => Panicked (RuntimeError "slice bounds out of range")
  | Lines (_ :: rows) => readRows rows []
  end.

(** ** The distance-matrix interface *)

(** [float64] values, as IEEE 754 data: both zeros, infinities, NaN, finite. *)
Definition float64 : Type := spec_float.

(** The Go comparison [x != 0]: false on [+0] and [-0], true on NaN. *)
Definition nonzero (x : float64) : bool := negb (SFeqb x (S754_zero false)).

Module maps.

(** [maps.DistanceMatrixRequest], with the fields the program sets.  The
    single origin is kept as the coordinate pair that
    [fmt.Sprintf("%f,%f", lat, lon)] renders. *)
Record DistanceMatrixRequest : Type := {
  Origins : list (float64 * float64);
  Destinations : list string;
  Language : string;
  DepartureTime : string;
  Mode : string;
  Units : string
}.

(** [maps.DistanceMatrixElement]: the fields the program reads,
    [Status] and [Distance.Meters]. *)
Record DistanceMatrixElement : Type := {
  Status : string;
  Meters : Z
}.

Record DistanceMatrixElementsRow : Type := {
  Elements : list DistanceMatrixElement
}.

Record DistanceMatrixResponse : Type := {
  Rows : list DistanceMatrixElementsRow
}.

End maps.

(** One call of [DistanceMatrix]: the request and what came back. *)
Definition call : Type :=
  maps.DistanceMatrixRequest * (maps.DistanceMatrixResponse + error).

(** [distanceMatrixRetriever]: the interface with the single method
    [DistanceMatrix].  An implementation may answer from hidden state (the
    network); its answer is a function of the calls made before and of the
    request.  A reply is an error or a response; the response and the
    elements it points to are taken to be non-nil, as the client decodes
    them. *)
Definition distanceMatrixRetriever : Type :=
  list call -> maps.DistanceMatrixRequest -> maps.DistanceMatrixResponse + error.

(** ** [getWalkableTrucks] *)

Definition maxDestinationsPerRequest : nat := 25.

(** [int(math.Ceil(float64(n) / float64(maxDestinationsPerRequest)))].  The
    floating-point quotient and its ceiling are exact for every length a
    slice of records can have in memory, so the count is the integer
    ceiling; so is [math.Min] on the two indices. *)
Definition numRequests (n : nat) : nat :=
  if (n mod maxDestinationsPerRequest =? 0)%nat
  then (n / maxDestinationsPerRequest)%nat
  else (n / maxDestinationsPerRequest + 1)%nat.

(** [elem.Status == "OK" && elem.Distance.Meters < 1000] *)
Definition withinWalk (elem : maps.DistanceMatrixElement) : bool :=
  String.eqb (maps.Status elem) "OK" && (maps.Meters elem <? 1000)%Z.

(** The loop over [resp.Rows[0].Elements]; [v] is the index of the head of
    [elems].  [allTrucks[startIdx+v]] panics when out of range. *)
Fixpoint elementsLoop (allTrucks : list foodTruckInfo) (startIdx v : nat)
    (elems : list maps.DistanceMatrixElement) (walkableTrucks : list foodTruckInfo)
  : outcome (list foodTruckInfo) :=
  match elems with
  | [] => Returned walkableTrucks
  | elem :: elems' =>
      if withinWalk elem then
        match allTrucks !! (startIdx + v)%nat with
        | None => Panicked (RuntimeError "index out of range")
        | Some truck =>
            elementsLoop allTrucks startIdx (S v) elems' (walkableTrucks ++ [truck])
        end
      else elementsLoop allTrucks startIdx (S v) elems' walkableTrucks
  end.

Definition mkRequest (lat lon : float64) (destinations : list string)
  : maps.DistanceMatrixRequest :=
  {| maps.Origins := [(lat, lon)];
     maps.Destinations := destinations;
     maps.Language := "en";
     maps.DepartureTime := "now";
     maps.Mode := "walking";
     maps.Units := "metric" |}.

(** The loop [for i := 0; i < numRequests; i++], with [remaining] the
    number of iterations left to run, [walkableTrucks] the accumulator and
    [tr] the calls made so far.  An [err] from the retriever is handed to
    [panic]. *)
Fixpoint requestLoop (d : distanceMatrixRetriever) (allTrucks : list foodTruckInfo)
    (lat lon : float64) (remaining i : nat)
    (walkableTrucks : list foodTruckInfo) (tr : list call)
  : outcome (list foodTruckInfo * option error) * list call :=
  match remaining with
  | O => (Returned (walkableTrucks, None), tr)
  | S remaining' =>
      let startIdx := (i * maxDestinationsPerRequest)%nat in
      let endIdx :=
        Nat.min (length allTrucks) (startIdx + maxDestinationsPerRequest) in
      if (startIdx <=? endIdx)%nat then
        let destinations :=
          map LatLon (take (endIdx - startIdx) (drop startIdx allTrucks)) in
        let r := mkRequest lat lon destinations in
        match d tr r with
        | inr err => (Panicked (PanicError err), tr ++ [(r, inr err)])
        | inl resp =>
            let tr' := tr ++ [(r, inl resp)] in
            match maps.Rows resp !! 0%nat with
            | None => (Panicked (RuntimeError "index out of range"), tr')
            | Some row =>
                match elementsLoop allTrucks startIdx 0 (maps.Elements row)
                        walkableTrucks with
                | Panicked p => (Panicked p, tr')
                | Returned walkableTrucks' =>
                    requestLoop d allTrucks lat lon remaining' (S i)
                      walkableTrucks' tr'
                end
            end
        end
      else (Panicked (RuntimeError "slice bounds out of range"), tr)
  end.

Definition getWalkableTrucks (d : distanceMatrixRetriever)
    (allTrucks : list foodTruckInfo) (lat lon : float64)
  : outcome (list foodTruckInfo * option error) * list call :=
  requestLoop d allTrucks lat lon (numRequests (length allTrucks)) 0 [] [].

(** ** [sort.Slice] *)

Module sort.

(** [sort.Slice(x, less)] belongs to the Go library.  Its documentation
    promises that the slice is sorted by [less] and states that the sort is
    not guaranteed to be stable.  A sorter is any function on the contents
    of the slice; [Sorts] is that promise.  [less] compares the elements at
    two indices, hence two elements. *)
Definition Sorter : Type := forall A : Type, (A -> A -> bool) -> list A -> list A.

(** The orders [less] may be: asymmetric, and incomparability is
    transitive. *)
Definition StrictWeak {A : Type} (less : A -> A -> bool) : Prop :=
  (forall a b, less a b = true -> less b a = false) /\
  (forall a b c, less a c = true -> less a b = true \/ less b c = true).

(** [b] does not have to come before [a]. *)
Definition notBefore {A : Type} (less : A -> A -> bool) : relation A :=
  fun a b => less a b = false.

Definition Sorts (s : Sorter) : Prop :=
  forall (A : Type) (less : A -> A -> bool) (x : list A),
    Permutation x (s A less x) /\
    (StrictWeak less ->
     StronglySorted (fun a b => less b a = false) (s A less x)).

(** [insertionSort_func], which the library runs on short slices: element
    [i] is swapped downwards while it is [less] than its predecessor.
    [before] is [data[a:i]] read from index [i-1] down to [a]. *)
Fixpoint sink {A : Type} (less : A -> A -> bool) (x : A) (before : list A) : list A :=
  match before with
  | [] => [x]
  | y :: before' => if less x y then y :: sink less x before' else x :: before
  end.

Definition insertionSort : Sorter :=
  fun A less data => rev (fold_left (fun before x => sink less x before) data []).

(** *** The library's algorithm on slices of up to 13 elements

    [sort.Slice] calls [pdqsort_func(data, 0, length, limit)] (Go 1.19 and
    later).  A range of at most 12 elements is sorted by insertion.  A slice
    of 13 elements goes through the loop body once: a pivot is chosen, a
    slice found in order is left alone, otherwise it is partitioned around
    the pivot and the two sides, of at most 12 elements, are sorted by
    insertion.  Longer slices reach steps that are not modelled here
    ([partitionEqual_func], [breakPatterns_func], [heapSort_func], the
    ninther), and [Slice] is [None] on them. *)

Section Library.

Context {A : Type} (less : A -> A -> bool).

Local Open Scope nat_scope.

(** [data.Less(i, j)] and [data.Swap(i, j)]; the indices the algorithm
    passes are within the slice. *)
Definition Less (data : list A) (i j : nat) : bool :=
  match data !! i, data !! j with
  | Some x, Some y => less x y
  | _, _ => false
  end.

Definition Swap (data : list A) (i j : nat) : list A :=
  match data !! i, data !! j with
  | Some x, Some y => <[i := y]> (<[j := x]> data)
  | _, _ => data
  end.

(** [insertionSort_func(data, a, b)]: [data[a:b]] sorted by insertion, the
    rest of the slice as it was. *)
Definition insertionSort_func (data : list A) (a b : nat) : list A :=
  take a data ++ insertionSort A less (take (b - a) (drop a data)) ++ drop b data.

(** [order2_func]: the two indices, the one of the element that is not
    [less] first, and the count of swaps. *)
Definition order2_func (data : list A) (a b swaps : nat) : nat * nat * nat :=
  if Less data b a then (b, a, S swaps) else (a, b, swaps).

(** [median_func]: the index of the median of three elements. *)
Definition median_func (data : list A) (a b c swaps : nat) : nat * nat :=
  let '(a, b, swaps) := order2_func data a b swaps in
  let '(b, c, swaps) := order2_func data b c swaps in
  let '(a, b, swaps) := order2_func data a b swaps in
  (b, swaps).

Inductive sortedHint : Type :=
| unknownHint
| increasingHint
| decreasingHint.

(** [choosePivot_func] on a range of fewer than 50 elements: the element in
    the middle, or from 8 elements on the median of the elements at one,
    two and three quarters; no swap on the way is the hint of a range in
    order.  [maxSwaps] is 12. *)
Definition choosePivot_func (data : list A) (a b : nat) : nat * sortedHint :=
  let l := b - a in
  let i := a + l / 4 * 1 in
  let j := a + l / 4 * 2 in
  let k := a + l / 4 * 3 in
  let '(j, swaps) := if 8 <=? l then median_func data i j k 0 else (j, 0) in
  match swaps with
  | 0 => (j, increasingHint)
  | 12 => (j, decreasingHint)
  | _ => (j, unknownHint)
  end.

(** [for i < b && !data.Less(i, i-1) { i++ }], with [n = b - i]. *)
Fixpoint inOrderUpTo (data : list A) (n i : nat) : nat :=
  match n with
  | O => i
  | S n' => if Less data i (i - 1) then i else inOrderUpTo data n' (S i)
  end.

(** [partialInsertionSort_func] on a range of fewer than 50 elements
    ([shortestShifting]): it moves nothing and tells whether the range is in
    order. *)
Definition partialInsertionSort_func (data : list A) (a b : nat) : bool :=
  inOrderUpTo data (b - (a + 1)) (a + 1) =? b.

(** [for i <= j && data.Less(i, a) { i++ }], with [n = j + 1 - i]. *)
Fixpoint skipLess (data : list A) (a n i : nat) : nat :=
  match n with
  | O => i
  | S n' => if Less data i a then skipLess data a n' (S i) else i
  end.

(** [for i <= j && !data.Less(j, a) { j-- }], with [n = j + 1 - i]. *)
Fixpoint skipNotLess (data : list A) (a n j : nat) : nat :=
  match n with
  | O => j
  | S n' => if Less data j a then j else skipNotLess data a n' (j - 1)
  end.

(** The [for] loop of [partition_func].  Every round moves [i] up and [j]
    down, so [rounds] never runs out when it starts at the length of the
    range; if it did the result would be [None]. *)
Fixpoint partitionLoop (data : list A) (a rounds i j : nat) : option (list A * nat) :=
  let i := skipLess data a (S j - i) i in
  let j := skipNotLess data a (S j - i) j in
  if j <? i then Some (data, j)
  else
    match rounds with
    | O => None
    | S rounds' => partitionLoop (Swap data i j) a rounds' (S i) (j - 1)
    end.

(** [partition_func(data, a, b, pivot)]: the slice after the partition, the
    new index of the pivot, and whether the range was partitioned already. *)
Definition partition_func (data : list A) (a b pivot : nat)
  : option (list A * nat * bool) :=
  let data := Swap data a pivot in
  let i := a + 1 in
  let j := b - 1 in
  let i := skipLess data a (S j - i) i in
  let j := skipNotLess data a (S j - i) j in
  if j <? i then Some (Swap data j a, j, true)
  else
    match partitionLoop (Swap data i j) a (b - a) (S i) (j - 1) with
    | Some (data, j) => Some (Swap data j a, j, false)
    | None => None
    end.

(** The rest of the loop body of [pdqsort_func] once the pivot is chosen,
    in the first round ([wasBalanced] and [wasPartitioned] hold their
    initial [true], and [a] is 0, so that [partitionEqual_func] is not
    tried) on a range whose two sides are sorted by insertion: the shorter
    side by the recursive call, the longer one by the next round of the
    loop. *)
Definition firstRound (data : list A) (a b pivot : nat) (hint : sortedHint)
  : option (list A) :=
  let inOrder :=
    match hint with
    | increasingHint => partialInsertionSort_func data a b
    | _ => false
    end in
  if inOrder then Some data
  else
    match partition_func data a b pivot with
    | Some (data, mid, _) =>
        let leftLen := mid - a in
        let rightLen := b - mid in
        if leftLen <? rightLen
        then Some (insertionSort_func (insertionSort_func data a mid) (mid + 1) b)
        else Some (insertionSort_func (insertionSort_func data (mid + 1) b) a mid)
    | None => None
    end.

(** [pdqsort_func(data, 0, len(data), limit)] for [len(data) <= 13]
    ([maxInsertion] is 12).  [decreasingHint], after which the library
    reverses the range, takes twelve swaps and does not come up on 13
    elements. *)
Definition Slice (data : list A) : option (list A) :=
  let a := 0 in
  let b := length data in
  if b - a <=? 12 then Some (insertionSort_func data a b)
  else if b - a =? 13 then
    match choosePivot_func data a b with
    | (_, decreasingHint) => None
    | (pivot, hint) => firstRound data a b pivot hint
    end
  else None.

End Library.

(** A sorter that is the library's on the slices [Slice] covers; a longer
    slice is sorted by insertion. *)
Definition sliceUpTo13 : Sorter :=
  fun A less data =>
    match Slice less data with
    | Some sorted => sorted
    | None => insertionSort A less data
    end.

End sort.

(** ** [searchFoodTrucks] *)

(** Where the slice [results] points: at the backing array of the caller's
    [searchList] (after [results = searchList]), or at an array allocated
    during the call, which only [results] reaches. *)
Inductive sliceRef : Type :=
| SharesSearchList
| Allocated (elems : list foodTruckInfo).

(** The elements [results] holds, given the caller's array. *)
Definition deref (searchList : list foodTruckInfo) (results : sliceRef)
  : list foodTruckInfo :=
  match results with
  | SharesSearchList => searchList
  | Allocated elems => elems
  end.

(** The loop that appends every truck whose [FoodItems] contain the term. *)
Fixpoint keywordLoop (searchTerm : string) (searchList results : list foodTruckInfo)
  : list foodTruckInfo :=
  match searchList with
  | [] => results
  | truck :: searchList' =>
      if strings.Contains (strings.ToLower (FoodItems truck))
           (strings.ToLower searchTerm)
      then keywordLoop searchTerm searchList' (results ++ [truck])
      else keywordLoop searchTerm searchList' results
  end.

(** [results[i].Received > results[j].Received] *)
Definition newer (a b : foodTruckInfo) : bool := (Received b <? Received a)%Z.

(** What a call of [searchFoodTrucks] leaves behind: the outcome (the
    elements of the returned slice, or a panic), the contents of the caller's
    backing array after the call, and the distance calls made. *)
Record searchRun : Type := {
  result : outcome (list foodTruckInfo);
  searchListAfter : list foodTruckInfo;
  calls : list call
}.

Definition searchFoodTrucks (sortSlice : sort.Sorter) (searchList : list foodTruckInfo)
    (distRetriever : distanceMatrixRetriever) (searchTerm : string)
    (lat lon : float64) (newestFirst : bool) : searchRun :=
  let results :=
    if (0 <? String.length searchTerm)%nat
    then Allocated (keywordLoop searchTerm searchList [])
    else SharesSearchList in
  let located :=
    if nonzero lat && nonzero lon then
      match getWalkableTrucks distRetriever (deref searchList results) lat lon with
      | (Returned (walkable, None), tr) => (Returned (Allocated walkable), tr)
      | (Returned (_, Some err), tr) => (Panicked (PanicError err), tr)
      | (Panicked p, tr) => (Panicked p, tr)
      end
    else (Returned results, []) in
  match located with
  | (Panicked p, tr) =>
      {| result := Panicked p; searchListAfter := searchList; calls := tr |}
  | (Returned results, tr) =>
      if newestFirst then
        match results with
        | SharesSearchList =>
            let sorted := sortSlice _ newer searchList in
            {| result := Returned sorted; searchListAfter := sorted; calls := tr |}
        | Allocated elems =>
            {| result := Returned (sortSlice _ newer elems);
               searchListAfter := searchList; calls := tr |}
        end
      else
        {| result := Returned (deref searchList results);
           searchListAfter := searchList; calls := tr |}
  end.

(** ** Vocabulary of the statements *)

(** A data row the loader can turn into a record: it has a field 20 and
    [strconv.Atoi] accepts it. *)
Definition parsedReceived (line : list string) : option Z :=
  match line !! 20%nat with
  | Some f => match strconv.Atoi f with inl recv => Some recv | inr _ => None end
  | None => None
  end.

Definition wellFormedRow (line : list string) : Prop :=
  is_Some (parsedReceived line).

(** The record of a row. *)
Definition recordOf (line : list string) : foodTruckInfo :=
  rowInfo line (default 0 (parsedReceived line)).

Definition approved (line : list string) : bool :=
  String.eqb (field line 10) "APPROVED".


(** [upper] is a capital letter [A]..[Z] and [lower] is its small letter,
    32 places further. *)
Definition capitalOf (upper lower : ascii) : bool :=
  let n := nat_of_ascii upper in
  ((65 <=? n) && (n <=? 90) && (nat_of_ascii lower =? n + 32))%nat.

(** Two bytes that are equal once the case of letters is ignored. *)
Definition sameLetter (a b : ascii) : bool :=
  Ascii.eqb a b || capitalOf a b || capitalOf b a.

(** Two strings of the same length that agree byte by byte up to case. *)
Fixpoint equalFold (s t : string) : bool :=
  match s, t with
  | EmptyString, EmptyString => true
  | String a s', String b t' => sameLetter a b && equalFold s' t'
  | _, _ => false
  end.

(** [s] contains [keyword] as a case-insensitive substring: some stretch
    [mid] of [s] equals the keyword up to the case of letters. *)
Definition caselessSubstring (keyword s : string) : Prop :=
  exists pre mid post,
    s = pre +:+ mid +:+ post /\ equalFold mid keyword = true.

(** A record whose [FoodItems] are ASCII. *)
Definition asciiItems (truck : foodTruckInfo) : Prop :=
  strings.isASCII (FoodItems truck) = true.

(** The test of the keyword loop on one truck. *)
Definition servesTerm (searchTerm : string) (truck : foodTruckInfo) : bool :=
  strings.Contains (strings.ToLower (FoodItems truck)) (strings.ToLower searchTerm).

(** Descending order of [Received]: [freshness[i] >= freshness[i+1]] at
    every valid index [i]. *)
Definition descending (results : list foodTruckInfo) : Prop :=
  forall (i : nat) (a b : foodTruckInfo),
    results !! i = Some a -> results !! S i = Some b ->
    (Received a >= Received b)%Z.

(** Records of equal [Received] stand in [after] in the order they have in
    [before]. *)
Definition keepsTies (before after : list foodTruckInfo) : Prop :=
  forall k : Z,
    List.filter (fun t => (Received t =? k)%Z) after
    = List.filter (fun t => (Received t =? k)%Z) before.

(** The candidates of batch [i]: [allTrucks[i*25 : min(len, i*25+25)]]. *)
Definition batch (allTrucks : list foodTruckInfo) (i : nat) : list foodTruckInfo :=
  take maxDestinationsPerRequest (drop (i * maxDestinationsPerRequest) allTrucks).

(** The [n] consecutive batches that start with batch [i]. *)
Definition batchesFrom (allTrucks : list foodTruckInfo) (i n : nat)
  : list (list foodTruckInfo) :=
  map (batch allTrucks) (seq i n).

Definition batches (allTrucks : list foodTruckInfo) : list (list foodTruckInfo) :=
  batchesFrom allTrucks 0 (numRequests (length allTrucks)).

(** The request that carries a batch. *)
Definition requestFor (lat lon : float64) (candidates : list foodTruckInfo)
  : maps.DistanceMatrixRequest :=
  mkRequest lat lon (map LatLon candidates).

(** The calls a retriever sees when the requests are sent one after the
    other, after the calls [tr]. *)
Fixpoint replay (d : distanceMatrixRetriever)
    (requests : list maps.DistanceMatrixRequest) (tr : list call) : list call :=
  match requests with
  | [] => []
  | r :: requests' =>
      let c := (r, d tr r) in
      c :: replay d requests' (tr ++ [c])
  end.

(** The elements of the first row of a reply. *)
Definition replyElements (c : call) : list maps.DistanceMatrixElement :=
  match snd c with
  | inl resp =>
      match maps.Rows resp with
      | row :: _ => maps.Elements row
      | [] => []
      end
  | inr _ => []
  end.

(** The candidates of a batch kept by the elements of its reply: candidate
    [i] of the batch goes with element [i], and stays when that element is
    within walking distance. *)
Fixpoint retained (candidates : list foodTruckInfo)
    (elems : list maps.DistanceMatrixElement) : list foodTruckInfo :=
  match candidates, elems with
  | truck :: candidates', elem :: elems' =>
      if withinWalk elem then truck :: retained candidates' elems'
      else retained candidates' elems'
  | _, _ => []
  end.

(** A retriever whose every reply is a response with a first row that has
    no more elements than the request has destinations. *)
Definition wellFormedReplies (d : distanceMatrixRetriever) : Prop :=
  forall (tr : list call) (r : maps.DistanceMatrixRequest),
    exists row rows,
      d tr r = inl {| maps.Rows := row :: rows |} /\
      (length (maps.Elements row) <= length (maps.Destinations r))%nat.

(** A call that came back without an error. *)
Definition answered (c : call) : Prop :=
  match snd c with inl _ => True | inr _ => False end.

(** ** Sample inputs *)

Definition sampleTruck (name items latlon : string) (received : Z) : foodTruckInfo :=
  {| Name := name; FacilityType := "Truck"; Address := "1 MARKET ST";
     Status := "APPROVED"; FoodItems := items; LatLon := latlon;
     Received := received |}.

(** Thirty candidates, numbered by [Received]. *)
Definition thirtyTrucks : list foodTruckInfo :=
  map (fun n => sampleTruck "cart" "Hot dogs" "37.79,-122.39" (Z.of_nat n)) (seq 0 30).

(** A coordinate with both parts non-zero. *)
Definition someLat : float64 := S754_finite false 37 0.
Definition someLon : float64 := S754_finite true 122 0.

Definition okElement (meters : Z) : maps.DistanceMatrixElement :=
  {| maps.Status := "OK"; maps.Meters := meters |}.

Definition oneRow (elems : list maps.DistanceMatrixElement)
  : maps.DistanceMatrixResponse :=
  {| maps.Rows := [ {| maps.Elements := elems |} ] |}.

(** A retriever that finds every destination 500 m away. *)
Definition allNearby : distanceMatrixRetriever :=
  fun _ r => inl (oneRow (map (fun _ => okElement 500) (maps.Destinations r))).

(** A retriever that answers by destination: ["near"] is 145 m away,
    ["edge"] exactly 1000 m, and anything else is not found. *)
Definition byDestination : distanceMatrixRetriever :=
  fun _ r =>
    inl (oneRow (map (fun dest =>
                        if String.eqb dest "near" then okElement 145
                        else if String.eqb dest "edge" then okElement 1000
                        else {| maps.Status := "NOT_FOUND"; maps.Meters := 0 |})
                   (maps.Destinations r))).

(** A retriever whose first call succeeds and whose later calls fail. *)
Definition failsAfterFirst : distanceMatrixRetriever :=
  fun tr r =>
    match tr with
    | [] => allNearby tr r
    | _ => inr (OtherError "deadline exceeded")
    end.

(** [distanceMatrixRetrieverMock] of the tests: always two elements, 712 m
    and 145 m. *)
Definition distanceMatrixRetrieverMock : distanceMatrixRetriever :=
  fun _ _ => inl (oneRow [okElement 712; okElement 145]).

(** The result of the keyword step on the elements of [searchList]. *)
Definition keywordStep (searchTerm : string) (searchList : list foodTruckInfo)
  : list foodTruckInfo :=
  if (0 <? String.length searchTerm)%nat
  then List.filter (servesTerm searchTerm) searchList
  else searchList.

(** The recency step on a result set. *)
Definition newestStep (sortSlice : sort.Sorter) (newestFirst : bool)
    (results : list foodTruckInfo) : list foodTruckInfo :=
  if newestFirst then sortSlice _ newer results else results.

(** A freshness field that [strconv.Atoi] rejects. *)
Definition freshnessRejected (line : list string) : Prop :=
  exists err, strconv.Atoi (field line 20) = inr err.

(** A permit row of 21 fields, of which the program reads eight. *)
Definition sampleRow (name status items received : string) : list string :=
  [ "1"; name; "Truck"; "0"; "MARKET ST"; "1 MARKET ST"; "0"; "0"; "0"; "0";
    status; items; "0"; "0"; "37.79"; "-122.39"; "0"; "0"; "0"; "0"; received ].

Definition sampleHeader : list string :=
  sampleRow "Applicant" "Status" "FoodItems" "Received".

Definition permitFile (rows : list (list string)) : string -> csvSource :=
  fun filename =>
    if String.eqb filename "Mobile_Food_Facility_Permit.csv"
    then Lines (sampleHeader :: rows)
    else OpenFails (OtherError "no such file or directory").

Definition mixedRows : list (list string) :=
  [ sampleRow "Pretzel Cart" "APPROVED" "Soft Pretzels: hot dogs" "20150227";
    sampleRow "Lower Case" "approved" "Tacos" "20160101";
    sampleRow "Gone" "EXPIRED" "Burgers" "20140101";
    sampleRow "Noodle Van" "APPROVED" "Noodles" "20151231" ].

Definition brokenRows : list (list string) :=
  [ sampleRow "Pretzel Cart" "APPROVED" "Soft Pretzels" "20150227";
    sampleRow "Gone" "EXPIRED" "Burgers" "2014-01-01";
    sampleRow "Noodle Van" "APPROVED" "Noodles" "20151231" ].

Definition negativeRow : list string :=
  sampleRow "Time Traveller" "APPROVED" "Crepes" "-1".

Definition negativeRows : list (list string) :=
  [ sampleRow "Pretzel Cart" "APPROVED" "Soft Pretzels" "20150227";
    negativeRow;
    sampleRow "Noodle Van" "APPROVED" "Noodles" "20151231" ].

(** Twelve records received on the same day, named in the order they have
    in the list, and a newer record after them. *)
Definition sameDay (name : string) : foodTruckInfo :=
  sampleTruck name "Tacos" "37.79,-122.39" 20150101.

Definition latest : foodTruckInfo :=
  sampleTruck "latest" "Tacos" "37.79,-122.39" 20160101.

Definition dozenAndLatest : list foodTruckInfo :=
  map sameDay ["a"; "b"; "c"; "d"; "e"; "f"; "g"; "h"; "i"; "j"; "k"; "l"]
  ++ [latest].

(** The same records as [sort.Slice] leaves them under [newer]. *)
Definition latestAndDozen : list foodTruckInfo :=
  latest
  :: map sameDay ["g"; "c"; "d"; "e"; "f"; "a"; "h"; "i"; "j"; "k"; "l"; "b"].

(** An older record followed by a newer one. *)
Definition olderThenNewer : list foodTruckInfo :=
  [ sampleTruck "older" "Tacos" "37.79,-122.39" 1;
    sampleTruck "newer" "Tacos" "37.79,-122.40" 2 ].

Definition zero : float64 := S754_zero false.

Definition pretzelCart : foodTruckInfo :=
  sampleTruck "Pretzel Cart" "Soft Pretzels: hot dogs" "near" 20150227.
Definition tacoTruck : foodTruckInfo :=
  sampleTruck "Taco Truck" "Tacos: burritos" "edge" 20160101.
Definition biteStand : foodTruckInfo :=
  sampleTruck "Bite Stand" "PRETZEL bites" "elsewhere" 20140101.

Definition menuTrucks : list foodTruckInfo := [pretzelCart; tacoTruck; biteStand].

(** The sixty approved records of the test fixture, as far as the tests
    look at them: their number. *)
Definition sixtyTrucks : list foodTruckInfo :=
  map (fun n => sampleTruck "cart" "Hot dogs" "37.79,-122.39" (Z.of_nat n)) (seq 0 60).

(** ** [getFoodTrucks] and [main] *)

Module url.

(** [url.Values.Has]: the key is present, with or without values. *)
Definition Has (v : gmap string (list string)) (key : string) : bool :=
  match v !! key with
  | Some _ => true
  | None => false
  end.

(** [url.Values.Get]: the first value of the key, [""] when there is none. *)
Definition Get (v : gmap string (list string)) (key : string) : string :=
  match v !! key with
  | Some (value :: _) => value
  | _ => ""
  end.

End url.

(** What the handler takes from outside the program: the environment
    variables ([os.Getenv]), [strconv.ParseFloat(s, 64)] and
    [maps.NewClient(maps.WithAPIKey(apiKey))]. *)
Record environment : Type := {
  Getenv : string -> string;
  ParseFloat : string -> float64 + error;
  NewClient : string -> distanceMatrixRetriever + error
}.

(** The reply written by [c.IndentedJSON(http.StatusOK, results)]. *)
Record response : Type := {
  status : Z;
  body : list foodTruckInfo
}.

(** One run of the handler: the reply or the panic, the elements of the
    global [foodTrucks] after it, and the distance lookups made. *)
Record handled : Type := {
  reply : outcome response;
  foodTrucksAfter : list foodTruckInfo;
  lookups : list call
}.

(** The part of the handler that reads [lat] and [lon]: both are parsed
    only when both keys are present, and stay at their zero value
    otherwise. *)
Definition parseLocation (env : environment) (params : gmap string (list string))
  : outcome (float64 * float64) :=
  if url.Has params "lat" && url.Has params "lon" then
    match ParseFloat env (url.Get params "lat") with
    | inr err => Panicked (PanicError err)
    | inl lat =>
        match ParseFloat env (url.Get params "lon") with
        | inr err => Panicked (PanicError err)
        | inl lon => Returned (lat, lon)
        end
    end
  else Returned (zero, zero).

Definition missingKey : error :=
  OtherError "GOOGLE_MAPS_API_KEY env var needs to be set".

(** [getFoodTrucks], run on the global [foodTrucks] with the query
    parameters of the request. *)
Definition getFoodTrucks (env : environment) (sortSlice : sort.Sorter)
    (foodTrucks : list foodTruckInfo) (params : gmap string (list string))
  : handled :=
  let stop p := {| reply := Panicked p; foodTrucksAfter := foodTrucks; lookups := [] |} in
  match parseLocation env params with
  | Panicked p => stop p
  | Returned (lat, lon) =>
      let apiKey := Getenv env "GOOGLE_MAPS_API_KEY" in
      if (String.length apiKey =? 0)%nat then stop (PanicError missingKey)
      else
        match NewClient env apiKey with
        | inr err => stop (PanicError err)
        | inl distRetriever =>
            let run :=
              searchFoodTrucks sortSlice foodTrucks distRetriever
                (url.Get params "search") lat lon (url.Has params "newest") in
            {| reply :=
                 match result run with
                 | Returned results => Returned {| status := 200; body := results |}
                 | Panicked p => Panicked p
                 end;
               foodTrucksAfter := searchListAfter run;
               lookups := calls run |}
        end
  end.

(** The start of [main]: the load of the permit file into [foodTrucks],
    with [panic(err)] when it fails. *)
Definition loadAtStartup (fs : string -> csvSource) : outcome (list foodTruckInfo) :=
  match readFoodTruckData fs "Mobile_Food_Facility_Permit.csv" with
  | Returned (trucks, None) => Returned trucks
  | Returned (_, Some err) => Panicked (PanicError err)
  | Panicked p => Panicked p
  end.

(** Requests handled one after the other.  The router of [gin.Default()]
    recovers a handler that panics, so the next request finds [foodTrucks]
    as the last one left it.  The replies come in the order of the
    requests. *)
Fixpoint handleAll (env : environment) (sortSlice : sort.Sorter)
    (foodTrucks : list foodTruckInfo) (requests : list (gmap string (list string)))
  : list (outcome response) * list foodTruckInfo :=
  match requests with
  | [] => ([], foodTrucks)
  | params :: requests' =>
      let h := getFoodTrucks env sortSlice foodTrucks params in
      let rest := handleAll env sortSlice (foodTrucksAfter h) requests' in
      (reply h :: fst rest, snd rest)
  end.

(** An environment with a key, a client that finds everything nearby, and
    a [ParseFloat] that knows two numerals. *)
Definition sampleEnv : environment :=
  {| Getenv := fun name =>
       if String.eqb name "GOOGLE_MAPS_API_KEY" then "AIza-sample" else "";
     ParseFloat := fun s =>
       if String.eqb s "37.79" then inl someLat
       else if String.eqb s "-122.39" then inl someLon
       else inr (NumError "ParseFloat" s);
     NewClient := fun _ => inl allNearby |}.

Definition noKeyEnv : environment :=
  {| Getenv := fun _ => "";
     ParseFloat := ParseFloat sampleEnv;
     NewClient := NewClient sampleEnv |}.

(** The query [?newest]. *)
Definition newestOnly : gmap string (list string) := {[ "newest" := [""] ]}.

(** The query [?lat=abc&search=pretzel]: a latitude without a longitude. *)
Definition loneLat : gmap string (list string) :=
  {[ "lat" := ["abc"]; "search" := ["pretzel"] ]}.

(** The query [?lat=abc&lon=-122.39]. *)
Definition badLat : gmap string (list string) :=
  {[ "lat" := ["abc"]; "lon" := ["-122.39"] ]}.

(** A permit file cut down to its first twenty columns. *)
Definition narrowFile : string -> csvSource :=
  fun _ => Lines (map (take 20) (sampleHeader :: mixedRows)).

(** A retriever whose replies have no rows. *)
Definition noRows : distanceMatrixRetriever :=
  fun _ _ => inl {| maps.Rows := [] |}.

(** A retriever that finds every destination 5 km away. *)
Definition allFar : distanceMatrixRetriever :=
  fun _ r => inl (oneRow (map (fun _ => okElement 5000) (maps.Destinations r))).

(** The query with no parameters. *)
Definition noParams : gmap string (list string) := ∅.
(** * Properties *)

(** ** The loader *)

Section Loader.

Lemma readRows_wellFormed rows : forall trucksInFile,
  Forall wellFormedRow rows ->
  readRows rows trucksInFile
  = Returned (trucksInFile ++ map recordOf (List.filter approved rows), None).
Proof.
  induction rows as [|line rows IH]; intros acc Hall; simpl.
  - by rewrite app_nil_r.
  - inversion Hall as [|? ? [recv Hrecv] Hrest]; subst.
    assert (Hrec : recordOf line = rowInfo line recv)
      by (unfold recordOf; by rewrite Hrecv).
    unfold parsedReceived in Hrecv.
    destruct (line !! 20%nat) as [f|]; [|discriminate].
    destruct (strconv.Atoi f) as [n|e]; [|discriminate].
    injection Hrecv as ->. unfold approved. simpl.
    destruct (String.eqb (field line 10) "APPROVED"); rewrite IH by assumption.
    + simpl. by rewrite <- app_assoc, Hrec.
    + done.
Qed.

Lemma readRows_malformed rows : forall trucksInFile,
  Forall (fun line => (20 < length line)%nat) rows ->
  Exists (fun line => parsedReceived line = None) rows ->
  exists f err,
    Exists (fun line => line !! 20%nat = Some f) rows /\
    strconv.Atoi f = inr err /\
    readRows rows trucksInFile = Returned ([], Some err).
Proof.
  induction rows as [|line rows IH]; intros acc Hlen Hbad.
  - inversion Hbad.
  - inversion Hlen as [|? ? Hl Hlen']; subst. simpl.
    destruct (lookup_lt_is_Some_2 line 20%nat Hl) as [f Hf].
    destruct (strconv.Atoi f) as [recv|err] eqn:Hatoi.
    + assert (Hbad' : Exists (fun line => parsedReceived line = None) rows).
      { inversion Hbad as [? ? H|]; subst; [|assumption].
        unfold parsedReceived in H. rewrite Hf, Hatoi in H. discriminate. }
      rewrite Hf, Hatoi. cbv zeta.
      destruct (String.eqb _ _).
      all: edestruct IH as (f' & err' & Hex & Hatoi' & Heq);
        [exact Hlen' | exact Hbad' | rewrite Heq].
      all: exists f', err'; split; [by apply Exists_cons_tl | done].
    + exists f, err. rewrite Hf, Hatoi. split; [by apply Exists_cons_hd | done].
Qed.

Lemma parseUnsigned_range (neg : bool) (digits s0 : string) (n : Z) :
  strconv.parseUnsigned neg digits s0 = inl n -> int_min <= n <= int_max.
Proof.
  unfold strconv.parseUnsigned. destruct digits as [|c digits]; [discriminate|].
  destruct (strconv.parseDigits _ 0) as [m|]; [|discriminate].
  destruct (_ && _) eqn:Hrange; [|discriminate].
  intros H. injection H as <-.
  apply andb_true_iff in Hrange as [Hlo Hhi].
  apply Z.leb_le in Hlo, Hhi. lia.
Qed.

Lemma Atoi_range (s : string) (n : Z) :
  strconv.Atoi s = inl n -> int_min <= n <= int_max.
Proof.
  unfold strconv.Atoi. destruct s as [|c rest]; [discriminate|].
  destruct (Ascii.eqb c "-"); [apply parseUnsigned_range|].
  destruct (Ascii.eqb c "+"); apply parseUnsigned_range.
Qed.


End Loader.

(** ** Substring search and case folding *)

Section Strings.

Lemma HasPrefix_append p : forall s,
  strings.HasPrefix s p = true <-> exists post, s = p +:+ post.
Proof.
  induction p as [|a p IH]; intros s; simpl.
  - split; [intros _; by exists s | done].
  - destruct s as [|b s].
    + split; [done | intros [post H]; discriminate].
    + rewrite andb_true_iff, IH, Ascii.eqb_eq.
      split; [intros [-> [post ->]]; by exists post|].
      intros [post H]. injection H as -> ->. split; [done | by exists post].
Qed.

Lemma Contains_unfold s substr :
  strings.Contains s substr
  = strings.HasPrefix s substr
    || match s with
       | EmptyString => false
       | String _ s' => strings.Contains s' substr
       end.
Proof. by destruct s. Qed.

Lemma Contains_occurs s : forall substr,
  strings.Contains s substr = true
  <-> exists pre post, s = pre +:+ substr +:+ post.
Proof.
  induction s as [|c s IH]; intros substr; rewrite Contains_unfold.
  - rewrite orb_false_r, HasPrefix_append. split.
    + intros [post H]. by exists "", post.
    + intros (pre & post & H). destruct pre; [by exists post | discriminate].
  - rewrite orb_true_iff, HasPrefix_append, IH. split.
    + intros [[post H]|(pre & post & H)].
      * by exists "", post.
      * exists (String c pre), post. simpl. by rewrite H.
    + intros (pre & post & H). destruct pre as [|c' pre]; simpl in H.
      * left. by exists post.
      * right. exists pre, post. by injection H.
Qed.

Lemma ToLower_append a : forall b,
  strings.ToLower (a +:+ b) = strings.ToLower a +:+ strings.ToLower b.
Proof. induction a as [|c a IH]; intros b; simpl; [done | by rewrite IH]. Qed.

Lemma ToLower_split a : forall s b,
  strings.ToLower s = a +:+ b ->
  exists a' b', s = a' +:+ b' /\ strings.ToLower a' = a /\ strings.ToLower b' = b.
Proof.
  induction a as [|c a IH]; intros s b H; simpl in H.
  - by exists "", s.
  - destruct s as [|c' s]; simpl in H; [discriminate|].
    injection H as Hc Hs.
    destruct (IH _ _ Hs) as (a' & b' & -> & <- & <-).
    exists (String c' a'), b'. simpl. by rewrite Hc.
Qed.

Lemma ascii_of_nat_eq (n : nat) (c : ascii) :
  (n < 256)%nat -> ascii_of_nat n = c <-> n = nat_of_ascii c.
Proof.
  intros Hn. split.
  - intros <-. by rewrite nat_ascii_embedding.
  - intros ->. apply ascii_nat_embedding.
Qed.

Lemma nat_of_ascii_eq (a b : ascii) : a = b <-> nat_of_ascii a = nat_of_ascii b.
Proof.
  split; [by intros ->|]. intros H.
  rewrite <- (ascii_nat_embedding a), <- (ascii_nat_embedding b). by rewrite H.
Qed.

Lemma sameLetter_lowerByte (a b : ascii) :
  sameLetter a b = true <-> strings.lowerByte a = strings.lowerByte b.
Proof.
  unfold sameLetter, capitalOf, strings.lowerByte.
  pose proof (nat_ascii_bounded a) as Ha. pose proof (nat_ascii_bounded b) as Hb.
  rewrite !orb_true_iff, !andb_true_iff, !Nat.leb_le, !Nat.eqb_eq, Ascii.eqb_eq.
  rewrite (nat_of_ascii_eq a b).
  destruct (Nat.leb_spec 65 (nat_of_ascii a)), (Nat.leb_spec (nat_of_ascii a) 90),
    (Nat.leb_spec 65 (nat_of_ascii b)), (Nat.leb_spec (nat_of_ascii b) 90);
    cbn [andb];
    rewrite ?(eq_comm a (ascii_of_nat _)), ?ascii_of_nat_eq, ?nat_ascii_embedding,
      ?nat_of_ascii_eq by lia;
    lia.
Qed.

Lemma equalFold_ToLower (s : string) : forall t,
  equalFold s t = true <-> strings.ToLower s = strings.ToLower t.
Proof.
  induction s as [|a s IH]; intros [|b t]; simpl; try done.
  rewrite andb_true_iff, sameLetter_lowerByte, IH. split.
  - by intros [-> ->].
  - intros H. by injection H.
Qed.

Lemma servesTerm_caseless searchTerm truck :
  servesTerm searchTerm truck = true
  <-> caselessSubstring searchTerm (FoodItems truck).
Proof.
  unfold servesTerm, caselessSubstring. rewrite Contains_occurs. split.
  - intros (pre & post & H).
    destruct (ToLower_split _ _ _ H) as (pre' & rest & -> & _ & Hrest).
    destruct (ToLower_split _ _ _ Hrest) as (mid & post' & -> & Hmid & _).
    exists pre', mid, post'. by rewrite equalFold_ToLower.
  - intros (pre & mid & post & -> & Hmid). apply equalFold_ToLower in Hmid.
    exists (strings.ToLower pre), (strings.ToLower post).
    by rewrite !ToLower_append, Hmid.
Qed.

Lemma keywordLoop_filter searchTerm searchList : forall results,
  keywordLoop searchTerm searchList results
  = results ++ List.filter (servesTerm searchTerm) searchList.
Proof.
  induction searchList as [|truck l IH]; intros results; simpl.
  - by rewrite app_nil_r.
  - fold (servesTerm searchTerm truck).
    destruct (servesTerm searchTerm truck); rewrite IH; [|done].
    by rewrite <- app_assoc.
Qed.

End Strings.

(** ** Sorters within the contract of [sort.Slice] *)

Section Sorting.

Context {A : Type} (less : A -> A -> bool).

Local Abbreviation notBefore := (sort.notBefore less).

Lemma sink_Permutation x before :
  Permutation (x :: before) (sort.sink less x before).
Proof.
  induction before as [|y before IH]; simpl; [done|].
  destruct (less x y); [|done].
  rewrite perm_swap. by constructor.
Qed.

Lemma sinks_Permutation data : forall before,
  Permutation (before ++ data)
    (fold_left (fun before x => sort.sink less x before) data before).
Proof.
  induction data as [|x data IH]; intros before; simpl.
  - by rewrite app_nil_r.
  - rewrite <- IH, <- sink_Permutation.
    by rewrite <- Permutation_middle.
Qed.

Hypothesis less_order : sort.StrictWeak less.

Lemma sink_sorted x before :
  StronglySorted notBefore before ->
  StronglySorted notBefore (sort.sink less x before).
Proof.
  destruct less_order as [asym cotrans].
  induction before as [|y before IH]; simpl; intros Hs.
  - repeat constructor.
  - apply StronglySorted_cons in Hs as [Hy Hs].
    destruct (less x y) eqn:Hxy; apply StronglySorted_cons.
    + split; [|by apply IH].
      eapply Permutation_Forall; [apply sink_Permutation|].
      constructor; [by apply asym | done].
    + split; [|by apply StronglySorted_cons].
      constructor; [done|].
      eapply Forall_impl; [exact Hy|]. intros z Hyz. unfold sort.notBefore in *.
      destruct (less x z) eqn:Hxz; [|done].
      destruct (cotrans _ y _ Hxz); congruence.
Qed.

Lemma sinks_sorted data : forall before,
  StronglySorted notBefore before ->
  StronglySorted notBefore
    (fold_left (fun before x => sort.sink less x before) data before).
Proof.
  induction data as [|x data IH]; intros before Hs; simpl; [done|].
  by apply IH, sink_sorted.
Qed.

Lemma StronglySorted_rev (l : list A) :
  StronglySorted notBefore l ->
  StronglySorted (fun a b => less b a = false) (rev l).
Proof.
  induction l as [|x l IH]; simpl; intros Hs; [constructor|].
  apply StronglySorted_cons in Hs as [Hx Hs].
  apply StronglySorted_app_2; [|by apply IH|repeat constructor].
  intros a b Ha Hb. apply list_elem_of_singleton in Hb as ->.
  rewrite Forall_forall in Hx. apply Hx.
  by apply list_elem_of_In, in_rev, list_elem_of_In.
Qed.

End Sorting.

Lemma insertionSort_Sorts : sort.Sorts sort.insertionSort.
Proof.
  intros A less x. unfold sort.insertionSort. split.
  - rewrite <- Permutation_rev. apply (sinks_Permutation less x []).
  - intros Hord. apply StronglySorted_rev, sinks_sorted; [done | constructor].
Qed.

(** On a slice of at most 12 elements the library sorts by insertion. *)
Lemma Slice_short {A : Type} (less : A -> A -> bool) (data : list A) :
  (length data <= 12)%nat ->
  sort.Slice less data = Some (sort.insertionSort A less data).
Proof.
  intros Hlen. unfold sort.Slice, sort.insertionSort_func.
  rewrite Nat.sub_0_r. destruct (Nat.leb_spec (length data) 12); [|lia].
  by rewrite take_0, drop_0, take_ge, drop_ge, app_nil_r.
Qed.

Lemma newer_StrictWeak : sort.StrictWeak newer.
Proof.
  unfold newer. split.
  - intros a b H. apply Z.ltb_lt in H. apply Z.ltb_ge. lia.
  - intros a b c H. apply Z.ltb_lt in H. rewrite !Z.ltb_lt. lia.
Qed.

Lemma StronglySorted_adjacent {A : Type} (R : relation A) (l : list A) :
  StronglySorted R l ->
  forall i a b, l !! i = Some a -> l !! S i = Some b -> R a b.
Proof.
  induction 1 as [|x l Hs IH Hx]; intros i a b Ha Hb; [done|].
  destruct i as [|i]; simpl in *.
  - injection Ha as <-. rewrite Forall_forall in Hx.
    apply Hx, list_elem_of_lookup. by exists 0%nat.
  - by eapply IH.
Qed.

Lemma sorted_newest_first (sortSlice : sort.Sorter) (l : list foodTruckInfo) :
  sort.Sorts sortSlice ->
  Permutation l (sortSlice _ newer l) /\ descending (sortSlice _ newer l).
Proof.
  intros Hsorts. destruct (Hsorts _ newer l) as [Hperm Hsorted].
  split; [done|]. intros i a b Ha Hb.
  pose proof (StronglySorted_adjacent _ _ (Hsorted newer_StrictWeak) i a b Ha Hb) as H.
  unfold newer in H. apply Z.ltb_ge in H. lia.
Qed.

(** ** The batches of [getWalkableTrucks] *)

Section Batches.

Local Open Scope nat_scope.

Lemma numRequests_bounds n :
  n <= numRequests n * 25 < n + 25.
Proof.
  unfold numRequests, maxDestinationsPerRequest.
  pose proof (Nat.div_mod_eq n 25) as Hdm.
  pose proof (Nat.mod_upper_bound n 25) as Hub.
  destruct (Nat.eqb_spec (n mod 25) 0); lia.
Qed.

Lemma batchesFrom_S allTrucks i n :
  batchesFrom allTrucks i (S n)
  = batch allTrucks i :: batchesFrom allTrucks (S i) n.
Proof. reflexivity. Qed.

Lemma concat_batchesFrom allTrucks n : forall i,
  concat (batchesFrom allTrucks i n) = take (n * 25) (drop (i * 25) allTrucks).
Proof.
  induction n as [|n IH]; intros i.
  - by rewrite take_0.
  - rewrite batchesFrom_S. simpl concat. rewrite IH.
    unfold batch, maxDestinationsPerRequest.
    replace (S i * 25) with (i * 25 + 25) by lia.
    rewrite <- drop_drop, take_take_drop. f_equal.
Qed.

Lemma concat_batches allTrucks : concat (batches allTrucks) = allTrucks.
Proof.
  unfold batches. rewrite concat_batchesFrom, drop_0.
  apply take_ge. pose proof (numRequests_bounds (length allTrucks)). lia.
Qed.

Lemma length_batch allTrucks i :
  length (batch allTrucks i) = Nat.min 25 (length allTrucks - i * 25).
Proof.
  unfold batch, maxDestinationsPerRequest. by rewrite length_take, length_drop.
Qed.

Lemma batches_sizes allTrucks :
  Forall (fun b => 0 < length b <= 25) (batches allTrucks).
Proof.
  unfold batches, batchesFrom. apply Forall_map, Forall_forall.
  intros i Hi. apply list_elem_of_In, in_seq in Hi. rewrite length_batch.
  pose proof (numRequests_bounds (length allTrucks)). lia.
Qed.

Lemma length_batches allTrucks :
  length (batches allTrucks) = numRequests (length allTrucks).
Proof. unfold batches, batchesFrom. by rewrite length_map, length_seq. Qed.

End Batches.

(** ** The loops of [getWalkableTrucks] *)

Section Walkable.

Local Open Scope nat_scope.

Lemma retained_take n : forall candidates elems,
  length elems <= n ->
  retained (take n candidates) elems = retained candidates elems.
Proof.
  induction n as [|n IH]; intros candidates elems Hlen.
  - destruct elems; [|simpl in Hlen; lia]. by destruct candidates.
  - destruct candidates as [|truck candidates]; [done|].
    destruct elems as [|elem elems]; [done|]. simpl in *.
    rewrite IH by lia. done.
Qed.

Lemma retained_sublist candidates : forall elems,
  retained candidates elems `sublist_of` candidates.
Proof.
  induction candidates as [|truck candidates IH]; intros elems; simpl.
  - constructor.
  - destruct elems as [|elem elems]; [apply sublist_nil_l|].
    destruct (withinWalk elem); [by apply sublist_skip | by apply sublist_cons].
Qed.

Lemma retained_batches_sublist bs : forall ess,
  concat (zip_with retained bs ess) `sublist_of` concat bs.
Proof.
  induction bs as [|b bs IH]; intros ess; simpl; [constructor|].
  destruct ess as [|es ess]; simpl; [apply sublist_nil_l|].
  apply sublist_app; [apply retained_sublist | apply IH].
Qed.

Lemma elementsLoop_retained allTrucks startIdx elems :
  forall v walkableTrucks,
    length elems <= length (drop (startIdx + v) allTrucks) ->
    elementsLoop allTrucks startIdx v elems walkableTrucks
    = Returned (walkableTrucks ++ retained (drop (startIdx + v) allTrucks) elems).
Proof.
  induction elems as [|elem elems IH]; intros v acc Hlen; simpl.
  - destruct (drop _ _); by rewrite app_nil_r.
  - simpl in Hlen.
    destruct (allTrucks !! (startIdx + v)) as [truck|] eqn:Hlook.
    2:{ apply lookup_ge_None in Hlook. rewrite length_drop in Hlen. lia. }
    rewrite (drop_S _ _ _ Hlook) in *. simpl in Hlen. cbn [retained].
    replace (S (startIdx + v)) with (startIdx + S v) in * by lia.
    destruct (withinWalk elem); rewrite IH by lia; [|done].
    by rewrite <- app_assoc.
Qed.

Variables (d : distanceMatrixRetriever) (allTrucks : list foodTruckInfo).
Variables (lat lon : float64).

Lemma destinations_batch i :
  i * 25 <= length allTrucks ->
  take (Nat.min (length allTrucks) (i * 25 + 25) - i * 25) (drop (i * 25) allTrucks)
  = batch allTrucks i.
Proof.
  intros Hi. unfold batch, maxDestinationsPerRequest.
  destruct (Nat.le_gt_cases (i * 25 + 25) (length allTrucks)).
  - f_equal. lia.
  - rewrite !take_ge; [done | rewrite length_drop; lia..].
Qed.

Hypothesis d_wellFormed : wellFormedReplies d.

Lemma requestLoop_wellFormed remaining : forall i walkableTrucks tr,
  (i + remaining) * 25 < length allTrucks + 25 ->
  let sent := replay d (map (requestFor lat lon) (batchesFrom allTrucks i remaining)) tr in
  requestLoop d allTrucks lat lon remaining i walkableTrucks tr
  = (Returned
       (walkableTrucks
        ++ concat (zip_with retained (batchesFrom allTrucks i remaining)
                     (map replyElements sent)), None),
     tr ++ sent).
Proof.
  induction remaining as [|remaining IH]; intros i acc tr Hi sent.
  - simpl. by rewrite !app_nil_r.
  - subst sent. rewrite batchesFrom_S. simpl.
    change maxDestinationsPerRequest with 25.
    assert (Hstart : i * 25 <= length allTrucks) by lia.
    destruct (Nat.leb_spec (i * 25) (Nat.min (length allTrucks) (i * 25 + 25)));
      [|lia].
    rewrite destinations_batch by done.
    fold (requestFor lat lon (batch allTrucks i)).
    destruct (d_wellFormed tr (requestFor lat lon (batch allTrucks i)))
      as (row & rows & Hd & Hlen).
    rewrite Hd. simpl in Hlen |- *. rewrite length_map in Hlen.
    rewrite elementsLoop_retained
      by (rewrite Nat.add_0_r; rewrite length_batch in Hlen;
          rewrite length_drop; lia).
    rewrite Nat.add_0_r.
    rewrite IH by lia. cbv zeta.
    rewrite <- !app_assoc. simpl. do 3 f_equal.
    unfold replyElements. simpl. unfold batch, maxDestinationsPerRequest.
    rewrite retained_take; [done|].
    rewrite length_batch in Hlen. lia.
Qed.

End Walkable.

Lemma replay_requests d requests : forall tr,
  map fst (replay d requests tr) = requests.
Proof.
  induction requests as [|r requests IH]; intros tr; simpl; [done|].
  by rewrite IH.
Qed.

Lemma getWalkableTrucks_wellFormed d allTrucks lat lon :
  wellFormedReplies d ->
  let sent := replay d (map (requestFor lat lon) (batches allTrucks)) [] in
  getWalkableTrucks d allTrucks lat lon
  = (Returned (concat (zip_with retained (batches allTrucks)
                         (map replyElements sent)), None), sent).
Proof.
  intros Hd. unfold getWalkableTrucks.
  apply (requestLoop_wellFormed d allTrucks lat lon Hd).
  pose proof (numRequests_bounds (length allTrucks)). lia.
Qed.

Lemma allNearby_wellFormed : wellFormedReplies allNearby.
Proof.
  intros tr r. eexists _, _. split; [reflexivity|].
  simpl. by rewrite length_map.
Qed.

Lemma byDestination_wellFormed : wellFormedReplies byDestination.
Proof.
  intros tr r. eexists _, _. split; [reflexivity|].
  simpl. by rewrite length_map.
Qed.

Lemma elementsLoop_panic allTrucks startIdx elems : forall v walkableTrucks p,
  elementsLoop allTrucks startIdx v elems walkableTrucks = Panicked p ->
  p = RuntimeError "index out of range".
Proof.
  induction elems as [|elem elems IH]; intros v acc p; simpl; [done|].
  destruct (withinWalk elem); [|by apply IH].
  destruct (allTrucks !! _); [by apply IH | congruence].
Qed.

(** A lookup that fails is the last call of the run, and the run panics
    with its error; a run never returns a non-nil error. *)
Lemma requestLoop_errors d allTrucks lat lon remaining :
  forall i walkableTrucks tr,
    Forall answered tr ->
    let run := requestLoop d allTrucks lat lon remaining i walkableTrucks tr in
    (Forall answered (snd run) /\
     (forall e, fst run <> Panicked (PanicError e)) /\
     (forall l e, fst run <> Returned (l, Some e)))
    \/ (exists before r e,
          snd run = before ++ [(r, inr e)] /\ Forall answered before /\
          fst run = Panicked (PanicError e)).
Proof.
  induction remaining as [|remaining IH]; intros i acc tr Htr; simpl.
  - left. by repeat split.
  - destruct (_ <=? _)%nat; [|left; by repeat split].
    match goal with |- context [d tr ?r] => set (req := r) end.
    destruct (d tr req) as [resp|err] eqn:Hd; simpl.
    + assert (Htr' : Forall answered (tr ++ [(req, inl resp)])).
      { apply Forall_app. split; [done|]. by repeat constructor. }
      destruct (maps.Rows resp !! 0%nat) as [row|]; simpl;
        [|left; by repeat split].
      destruct (elementsLoop _ _ _ _ _) as [walkable'|p] eqn:Hloop.
      * by apply IH.
      * left. repeat split; [done| |done]. simpl. intros e He.
        injection He as ->. by apply elementsLoop_panic in Hloop.
    + right. by exists tr, req, err.
Qed.

Lemma getWalkableTrucks_nil_error d allTrucks lat lon l e :
  fst (getWalkableTrucks d allTrucks lat lon) <> Returned (l, Some e).
Proof.
  destruct (requestLoop_errors d allTrucks lat lon
              (numRequests (length allTrucks)) 0 [] [] (Forall_nil_2 _))
    as [(_ & _ & H)|(before & r & e' & _ & _ & H)]; unfold getWalkableTrucks.
  - apply H.
  - by rewrite H.
Qed.

(** ** The pipeline of [searchFoodTrucks] *)

Section Search.

Variables (sortSlice : sort.Sorter) (searchList : list foodTruckInfo).
Variables (d : distanceMatrixRetriever) (searchTerm : string).
Variables (lat lon : float64) (newestFirst : bool).

Local Abbreviation run :=
  (searchFoodTrucks sortSlice searchList d searchTerm lat lon newestFirst).

Lemma nonzero_false (x : float64) :
  nonzero x = false <-> x = S754_zero false \/ x = S754_zero true.
Proof.
  unfold nonzero, SFeqb. split.
  - destruct x as [[]|[]| |[] m e]; simpl; intros H; auto; discriminate.
  - by intros [->| ->].
Qed.

Lemma deref_keyword :
  deref searchList
    (if (0 <? String.length searchTerm)%nat
     then Allocated (keywordLoop searchTerm searchList [])
     else SharesSearchList)
  = keywordStep searchTerm searchList.
Proof.
  unfold keywordStep. destruct (0 <? String.length searchTerm)%nat; [|done].
  simpl. by rewrite keywordLoop_filter.
Qed.

Lemma search_without_location :
  nonzero lat && nonzero lon = false ->
  result run = Returned (newestStep sortSlice newestFirst
                           (keywordStep searchTerm searchList))
  /\ calls run = [].
Proof.
  intros Hzero. unfold run, searchFoodTrucks, newestStep. rewrite Hzero.
  rewrite <- deref_keyword.
  destruct (0 <? String.length searchTerm)%nat; by destruct newestFirst.
Qed.

Lemma search_with_location :
  nonzero lat && nonzero lon = true ->
  let walk := getWalkableTrucks d (keywordStep searchTerm searchList) lat lon in
  calls run = snd walk
  /\ result run = match fst walk with
                  | Returned (walkable, _) =>
                      Returned (newestStep sortSlice newestFirst walkable)
                  | Panicked p => Panicked p
                  end
  /\ searchListAfter run = searchList.
Proof.
  intros Hnz walk. unfold run, searchFoodTrucks, newestStep.
  rewrite Hnz, deref_keyword. fold walk.
  pose proof (getWalkableTrucks_nil_error d
                (keywordStep searchTerm searchList) lat lon) as Hnil.
  fold walk in Hnil.
  destruct walk as [[[walkable [e|]]|p] tr]; simpl in *.
  - by destruct (Hnil walkable e).
  - by destruct newestFirst.
  - done.
Qed.

(** The two paths that leave [results] on an array of its own, and the
    path without sorting, leave the caller's array as it was. *)
Lemma searchList_kept :
  searchTerm <> "" \/ nonzero lat && nonzero lon = true \/ newestFirst = false ->
  searchListAfter run = searchList.
Proof.
  intros Hcase.
  destruct (nonzero lat && nonzero lon) eqn:Hnz;
    [by apply search_with_location|].
  unfold run, searchFoodTrucks. rewrite Hnz.
  destruct Hcase as [Hterm|[Hloc| ->]]; [|done|].
  - destruct searchTerm; [done|]. simpl. by destruct newestFirst.
  - by destruct (0 <? String.length searchTerm)%nat.
Qed.

End Search.

(** Whatever sorter stands for [sort.Slice], sorting the caller's slice puts
    the newer record first in the caller's array. *)
Lemma any_sorter_reorders (sortSlice : sort.Sorter) (d : distanceMatrixRetriever) :
  sort.Sorts sortSlice ->
  searchListAfter (searchFoodTrucks sortSlice olderThenNewer d "" zero zero true)
  = rev olderThenNewer.
Proof.
  intros Hsorts.
  change (searchListAfter
            (searchFoodTrucks sortSlice olderThenNewer d "" zero zero true))
    with (sortSlice _ newer olderThenNewer).
  destruct (sorted_newest_first sortSlice olderThenNewer Hsorts) as [Hperm Hdesc].
  destruct (Permutation_length_2_inv Hperm) as [Heq|Heq]; rewrite Heq in *;
    [|done].
  specialize (Hdesc 0%nat _ _ eq_refl eq_refl). simpl in Hdesc. lia.
Qed.

(** The test "search with distance": sixty records and the mock of the
    tests give six results, two per batch of 25, 25 and 10. *)
Example search_with_distance_returns_six :
  match result (searchFoodTrucks sort.insertionSort sixtyTrucks
                  distanceMatrixRetrieverMock "" someLat someLon false) with
  | Returned results => map Received results = [0; 1; 25; 26; 50; 51]
  | Panicked _ => False
  end.
Proof. vm_compute. reflexivity. Qed.

(** A reply longer than its batch reaches past the candidate list: with the
    mock of the tests a single candidate makes the filter panic. *)
Example mock_overruns_single_candidate :
  fst (getWalkableTrucks distanceMatrixRetrieverMock [pretzelCart] someLat someLon)
  = Panicked (RuntimeError "index out of range").
Proof. reflexivity. Qed.

(** * The properties of the specification *)

(** ** The loader *)

(** C4. When the file has a header and every data row has a freshness field
    that parses, [readFoodTruckData] returns without error exactly the
    records of the rows whose field 10 is ["APPROVED"], in file order; the
    comparison is exact, and every record returned carries that status. *)
Theorem readFoodTruckData_keeps_approved
    (fs : string -> csvSource) (filename : string)
    (header : list string) (rows : list (list string)) :
  fs filename = Lines (header :: rows) ->
  Forall wellFormedRow rows ->
  readFoodTruckData fs filename
  = Returned (map recordOf (List.filter approved rows), None)
  /\ (forall line, approved line = true <-> field line 10 = "APPROVED")
  /\ Forall (fun truck => Status truck = "APPROVED")
       (map recordOf (List.filter approved rows)).
Proof.
  intros Hfile Hrows. unfold readFoodTruckData. rewrite Hfile.
  rewrite readRows_wellFormed by done. split; [done|]. split.
  - intros line. apply String.eqb_eq.
  - apply Forall_map, Forall_forall. intros line Hline.
    apply list_elem_of_In, filter_In in Hline as [_ Hline].
    by apply String.eqb_eq in Hline.
Qed.

Lemma readFoodTruckData_keeps_approved_witness :
  Forall wellFormedRow mixedRows /\
  readFoodTruckData (permitFile mixedRows) "Mobile_Food_Facility_Permit.csv"
  = Returned
      ([ {| Name := "Pretzel Cart"; FacilityType := "Truck";
            Address := "1 MARKET ST"; Status := "APPROVED";
            FoodItems := "Soft Pretzels: hot dogs";
            LatLon := "37.79,-122.39"; Received := 20150227 |};
         {| Name := "Noodle Van"; FacilityType := "Truck";
            Address := "1 MARKET ST"; Status := "APPROVED";
            FoodItems := "Noodles";
            LatLon := "37.79,-122.39"; Received := 20151231 |} ], None).
Proof.
  assert (Hrows : Forall wellFormedRow mixedRows)
    by (repeat constructor; vm_compute; eauto).
  split; [exact Hrows|].
  exact (proj1 (readFoodTruckData_keeps_approved (permitFile mixedRows)
                  "Mobile_Food_Facility_Permit.csv" sampleHeader mixedRows
                  eq_refl Hrows)).
Defined.

(** C9. When the file has a header and every data row has its 21 fields, a
    single data row whose freshness field [strconv.Atoi] rejects makes
    [readFoodTruckData] return no records and the error of such a row,
    whatever the status of that row and whatever the other rows hold. *)
Theorem readFoodTruckData_rejects_freshness
    (fs : string -> csvSource) (filename : string)
    (header : list string) (rows : list (list string)) :
  fs filename = Lines (header :: rows) ->
  Forall (fun line => (20 < length line)%nat) rows ->
  Exists freshnessRejected rows ->
  exists f err,
    Exists (fun line => line !! 20%nat = Some f) rows /\
    strconv.Atoi f = inr err /\
    readFoodTruckData fs filename = Returned ([], Some err).
Proof.
  intros Hfile Hlen Hbad. unfold readFoodTruckData. rewrite Hfile.
  apply readRows_malformed; [done|].
  rewrite Forall_forall in Hlen. rewrite Exists_exists in *.
  destruct Hbad as (line & Hin & err & Herr). exists line. split; [done|].
  destruct (lookup_lt_is_Some_2 line 20%nat (Hlen _ Hin)) as [f Hf].
  unfold parsedReceived, field in *. rewrite Hf in *. simpl in Herr.
  by rewrite Herr.
Qed.

Lemma readFoodTruckData_rejects_freshness_witness :
  Exists freshnessRejected brokenRows /\
  exists f err,
    Exists (fun line => line !! 20%nat = Some f) brokenRows /\
    strconv.Atoi f = inr err /\
    readFoodTruckData (permitFile brokenRows) "Mobile_Food_Facility_Permit.csv"
    = Returned ([], Some err).
Proof.
  assert (Hbad : Exists freshnessRejected brokenRows).
  { apply Exists_cons_tl, Exists_cons_hd. eexists. vm_compute. reflexivity. }
  split; [exact Hbad|].
  apply (readFoodTruckData_rejects_freshness (permitFile brokenRows)
           "Mobile_Food_Facility_Permit.csv" sampleHeader brokenRows eq_refl);
    [|exact Hbad].
  repeat constructor; simpl; lia.
Defined.



(** ** The search pipeline *)



(** C8. The proximity step runs exactly when [lat != 0 && lon != 0]: a
    coordinate is zero when it is [+0] or [-0].  When either is zero no
    distance lookup is made and the result is the keyword result, sorted if
    newest-first was asked; when both are non-zero the lookups are those of
    [getWalkableTrucks] on the keyword result, whose output replaces the
    result set and whose panic ends the search. *)
Theorem proximity_needs_both_coordinates
    (sortSlice : sort.Sorter) (searchList : list foodTruckInfo)
    (d : distanceMatrixRetriever) (searchTerm : string)
    (lat lon : float64) (newestFirst : bool) :
  (forall x : float64,
     nonzero x = false <-> x = S754_zero false \/ x = S754_zero true) /\
  let run := searchFoodTrucks sortSlice searchList d searchTerm lat lon newestFirst in
  let kept := keywordStep searchTerm searchList in
  let walk := getWalkableTrucks d kept lat lon in
  if nonzero lat && nonzero lon
  then calls run = snd walk /\
       result run = match fst walk with
                    | Returned (walkable, _) =>
                        Returned (newestStep sortSlice newestFirst walkable)
                    | Panicked p => Panicked p
                    end
  else calls run = [] /\
       result run = Returned (newestStep sortSlice newestFirst kept).
Proof.
  split; [exact nonzero_false|]. intros run kept walk.
  destruct (nonzero lat && nonzero lon) eqn:Hnz.
  - destruct (search_with_location sortSlice searchList d searchTerm lat lon
                newestFirst Hnz) as (Hcalls & Hresult & _).
    by split.
  - destruct (search_without_location sortSlice searchList d searchTerm lat lon
                newestFirst Hnz) as (Hresult & Hcalls).
    by split.
Qed.

(** C1. The base list does not survive every call: with an empty search
    term, no location and newest-first, [results] is the caller's own slice
    and [sort.Slice] reorders it in place.  On a base list of an older record
    followed by a newer one the call leaves the base list reversed. *)
Theorem searchFoodTrucks_reorders_searchList :
  let run :=
    searchFoodTrucks sort.insertionSort olderThenNewer allNearby "" zero zero true in
  result run = Returned (rev olderThenNewer) /\
  searchListAfter run = rev olderThenNewer /\
  searchListAfter run <> olderThenNewer.
Proof.
  vm_compute. repeat split. discriminate.
Qed.

(** C2. When newest-first is asked, the result is the result without
    sorting, rearranged into descending order of [Received]:
    [freshness[i] >= freshness[i+1]] at every valid index.  The sort step
    adds no failure of its own.  The order among records of equal freshness
    is whatever [sort.Slice] produces. *)
Theorem newest_first_is_descending
    (sortSlice : sort.Sorter) (searchList : list foodTruckInfo)
    (d : distanceMatrixRetriever) (searchTerm : string) (lat lon : float64) :
  sort.Sorts sortSlice ->
  match result (searchFoodTrucks sortSlice searchList d searchTerm lat lon false),
        result (searchFoodTrucks sortSlice searchList d searchTerm lat lon true)
  with
  | Returned before, Returned after =>
      Permutation before after /\ descending after
  | Panicked p, Panicked q => p = q
  | _, _ => False
  end.
Proof.
  intros Hsorts. unfold searchFoodTrucks.
  destruct (if nonzero lat && nonzero lon then _ else _) as [[results|p] tr];
    [|done].
  destruct results as [|elems]; simpl; by apply sorted_newest_first.
Qed.

Lemma newest_first_is_descending_witness :
  sort.Sorts sort.insertionSort /\
  Permutation menuTrucks [tacoTruck; pretzelCart; biteStand] /\
  descending [tacoTruck; pretzelCart; biteStand].
Proof.
  split; [exact insertionSort_Sorts|].
  exact (newest_first_is_descending sort.insertionSort menuTrucks allNearby ""
           zero zero insertionSort_Sorts).
Defined.

(** C2, the stable part.  Twelve records of one day followed by a newer
    one: [sort.Slice] partitions the thirteen around the record in the middle
    of the slice, which moves records of that day past one another.  The
    result is in descending order and holds the same records, and the
    records of equal freshness are no longer in the order they had. *)
Lemma newest_first_not_stable :
  sort.Slice newer dozenAndLatest = Some latestAndDozen /\
  result (searchFoodTrucks sort.sliceUpTo13 dozenAndLatest allNearby "" zero zero false)
  = Returned dozenAndLatest /\
  result (searchFoodTrucks sort.sliceUpTo13 dozenAndLatest allNearby "" zero zero true)
  = Returned latestAndDozen /\
  Permutation dozenAndLatest latestAndDozen /\
  descending latestAndDozen /\
  ~ keepsTies dozenAndLatest latestAndDozen.
Proof.
  split; [by vm_compute|]. split; [reflexivity|]. split; [by vm_compute|].
  split; [|split].
  - unfold dozenAndLatest, latestAndDozen. rewrite <- Permutation_cons_append.
    apply perm_skip, Permutation_map.
    apply (bool_decide_unpack _). by vm_compute.
  - intros i a b Ha Hb. enough (Received b <= Received a) by lia.
    revert i a b Ha Hb.
    apply (StronglySorted_adjacent (fun a b => Received b <= Received a)).
    unfold latestAndDozen.
    repeat (apply StronglySorted_cons; split;
            [repeat constructor; simpl; lia|]).
    constructor.
  - intros Hties. specialize (Hties 20150101). vm_compute in Hties. discriminate.
Qed.

(** ** The walking-distance filter *)

(** C6. When every reply is a response whose first row has at most one
    element per destination, [getWalkableTrucks] returns without error, and
    a candidate is in its output exactly when the element at its position
    in the reply to its batch has status ["OK"] and a distance below 1000:
    element [i] of the reply to batch [k] goes with candidate [k*25 + i].
    Elements with another status or a distance of 1000 or more leave their
    candidate out and nothing else happens. *)
Theorem walkable_by_position
    (d : distanceMatrixRetriever) (allTrucks : list foodTruckInfo)
    (lat lon : float64) :
  wellFormedReplies d ->
  let run := getWalkableTrucks d allTrucks lat lon in
  map fst (snd run) = map (requestFor lat lon) (batches allTrucks)
  /\ fst run
     = Returned (concat (zip_with retained (batches allTrucks)
                           (map replyElements (snd run))), None)
  /\ (forall candidates elems,
        retained candidates elems
        = map fst (List.filter (fun p => withinWalk (snd p))
                     (combine candidates elems)))
  /\ (forall elem,
        withinWalk elem = true
        <-> maps.Status elem = "OK" /\ maps.Meters elem < 1000)
  /\ (forall k i, (i < 25)%nat ->
        batch allTrucks k !! i = allTrucks !! (k * 25 + i)%nat).
Proof.
  intros Hd run. unfold run.
  rewrite (getWalkableTrucks_wellFormed d allTrucks lat lon Hd). simpl.
  split; [apply replay_requests|]. split; [done|]. split; [|split].
  - induction candidates as [|truck candidates IH]; intros [|elem elems];
      simpl; try done.
    rewrite IH. by destruct (withinWalk elem).
  - intros elem. unfold withinWalk.
    by rewrite andb_true_iff, String.eqb_eq, Z.ltb_lt.
  - intros k i Hi. unfold batch, maxDestinationsPerRequest.
    by rewrite lookup_take_lt, lookup_drop by done.
Qed.

Lemma walkable_by_position_witness :
  wellFormedReplies byDestination /\
  fst (getWalkableTrucks byDestination menuTrucks someLat someLon)
  = Returned ([pretzelCart], None).
Proof.
  split; [exact byDestination_wellFormed|].
  exact (proj1 (proj2 (walkable_by_position byDestination menuTrucks someLat
                         someLon byDestination_wellFormed))).
Defined.

(** C7. When every reply is well formed, [getWalkableTrucks] sends one
    request per batch, the batches being consecutive stretches of 1 to 25
    candidates that make up the candidate list; their number [k] is the
    ceiling of [n / 25], that is [n <= 25 k < n + 25]; thirty candidates give
    two requests, of 25 and of 5 destinations; and the output keeps the
    order of the candidate list. *)
Theorem batches_of_at_most_25
    (d : distanceMatrixRetriever) (allTrucks : list foodTruckInfo)
    (lat lon : float64) :
  wellFormedReplies d ->
  let run := getWalkableTrucks d allTrucks lat lon in
  map fst (snd run) = map (requestFor lat lon) (batches allTrucks)
  /\ concat (batches allTrucks) = allTrucks
  /\ Forall (fun b => (0 < length b <= 25)%nat) (batches allTrucks)
  /\ (length allTrucks <= length (snd run) * 25 < length allTrucks + 25)%nat
  /\ (length allTrucks = 30%nat ->
      map (fun c => length (maps.Destinations (fst c))) (snd run)
      = [25%nat; 5%nat])
  /\ exists walkable,
       fst run = Returned (walkable, None) /\ walkable `sublist_of` allTrucks.
Proof.
  intros Hd run.
  assert (Hsent : map fst (snd run) = map (requestFor lat lon) (batches allTrucks)).
  { unfold run. rewrite (getWalkableTrucks_wellFormed d allTrucks lat lon Hd).
    apply replay_requests. }
  split; [exact Hsent|]. split; [apply concat_batches|].
  split; [apply batches_sizes|]. split; [|split].
  - replace (length (snd run)) with (numRequests (length allTrucks));
      [apply numRequests_bounds|].
    pose proof (f_equal length Hsent) as Hlen.
    rewrite !List.length_map, length_batches in Hlen. done.
  - intros Hthirty.
    rewrite <- (map_map fst (fun r => length (maps.Destinations r))), Hsent.
    unfold batches. rewrite Hthirty. simpl.
    rewrite !length_map, !length_batch, Hthirty. reflexivity.
  - unfold run. rewrite (getWalkableTrucks_wellFormed d allTrucks lat lon Hd).
    eexists. split; [reflexivity|].
    match goal with |- concat (zip_with retained _ ?ess) `sublist_of` _ =>
      pose proof (retained_batches_sublist (batches allTrucks) ess) as Hsub end.
    by rewrite concat_batches in Hsub.
Qed.

Lemma batches_of_at_most_25_witness :
  wellFormedReplies allNearby /\
  map (fun c => length (maps.Destinations (fst c)))
    (snd (getWalkableTrucks allNearby thirtyTrucks someLat someLon))
  = [25%nat; 5%nat].
Proof.
  split; [exact allNearby_wellFormed|].
  exact (proj1 (proj2 (proj2 (proj2 (proj2
           (batches_of_at_most_25 allNearby thirtyTrucks someLat someLon
              allNearby_wellFormed))))) eq_refl).
Defined.

(** C3. A distance lookup that returns an error ends [getWalkableTrucks]
    at once by [panic(err)]: the failed call is the last one made, the
    outcome is a panic that carries the error, and no list (hence none of the
    candidates kept from earlier batches) and no error value is returned. *)
Theorem lookup_error_panics
    (d : distanceMatrixRetriever) (allTrucks : list foodTruckInfo)
    (lat lon : float64) (r : maps.DistanceMatrixRequest) (e : error) :
  In (r, inr e) (snd (getWalkableTrucks d allTrucks lat lon)) ->
  let run := getWalkableTrucks d allTrucks lat lon in
  fst run = Panicked (PanicError e)
  /\ (exists before, snd run = before ++ [(r, inr e)] /\ Forall answered before)
  /\ (forall walkable err, fst run <> Returned (walkable, err)).
Proof.
  intros Hin run. unfold run, getWalkableTrucks in *.
  destruct (requestLoop_errors d allTrucks lat lon
              (numRequests (length allTrucks)) 0 [] [] (Forall_nil_2 _))
    as [(Hall & _ & _)|(before & r' & e' & Htr & Hbefore & Hout)].
  - rewrite Forall_forall in Hall.
    by destruct (Hall _ (proj2 (list_elem_of_In _ _) Hin)).
  - rewrite Htr in Hin. apply in_app_or in Hin as [Hin|[Heq|[]]].
    + rewrite Forall_forall in Hbefore.
      by destruct (Hbefore _ (proj2 (list_elem_of_In _ _) Hin)).
    + injection Heq as -> ->. split; [done|]. split; [by exists before|].
      intros walkable err. by rewrite Hout.
Qed.

Lemma lookup_error_panics_witness :
  In (requestFor someLat someLon (batch thirtyTrucks 1),
      inr (OtherError "deadline exceeded"))
    (snd (getWalkableTrucks failsAfterFirst thirtyTrucks someLat someLon)) /\
  fst (getWalkableTrucks failsAfterFirst thirtyTrucks someLat someLon)
  = Panicked (PanicError (OtherError "deadline exceeded")).
Proof.
  assert (Hin : In (requestFor someLat someLon (batch thirtyTrucks 1),
                    inr (OtherError "deadline exceeded"))
                  (snd (getWalkableTrucks failsAfterFirst thirtyTrucks
                          someLat someLon)))
    by (right; left; reflexivity).
  split; [exact Hin|].
  exact (proj1 (lookup_error_panics failsAfterFirst thirtyTrucks someLat someLon
                  _ _ Hin)).
Defined.

(** C3, with the error returned.  The second lookup fails after a first batch of
    25 candidates was kept; the error is not returned to the caller, and
    neither is anything else. *)
Lemma lookup_error_not_returned :
  let run := getWalkableTrucks failsAfterFirst thirtyTrucks someLat someLon in
  In (requestFor someLat someLon (batch thirtyTrucks 1),
      inr (OtherError "deadline exceeded")) (snd run) /\
  (forall walkable,
     fst run <> Returned (walkable, Some (OtherError "deadline exceeded"))) /\
  fst run = Panicked (PanicError (OtherError "deadline exceeded")).
Proof.
  vm_compute. split; [right; left; reflexivity|]. split; [|reflexivity].
  intros walkable H. discriminate.
Qed.

(** * Further properties of the loader *)

Lemma readRows_after_wellFormed (good rest : list (list string)) :
  forall trucksInFile,
    Forall wellFormedRow good ->
    readRows (good ++ rest) trucksInFile
    = readRows rest (trucksInFile ++ map recordOf (List.filter approved good)).
Proof.
  induction good as [|line good IH]; intros acc Hgood; simpl.
  - by rewrite app_nil_r.
  - inversion Hgood as [|? ? [recv Hrecv] Hrest]; subst.
    assert (Hrec : recordOf line = rowInfo line recv)
      by (unfold recordOf; by rewrite Hrecv).
    unfold parsedReceived in Hrecv.
    destruct (line !! 20%nat) as [f|]; [|discriminate].
    destruct (strconv.Atoi f) as [n|e]; [|discriminate].
    injection Hrecv as ->. unfold approved. simpl.
    destruct (String.eqb (field line 10) "APPROVED"); rewrite IH by assumption.
    + simpl. by rewrite <- app_assoc, Hrec.
    + done.
Qed.

Lemma readRows_returned (rows : list (list string)) :
  forall trucksInFile trucks err,
    readRows rows trucksInFile = Returned (trucks, err) ->
    match err with
    | None => Forall wellFormedRow rows
    | Some _ => trucks = []
    end.
Proof.
  induction rows as [|line rows IH]; intros acc trucks err; simpl.
  - intros H. injection H as <- <-. constructor.
  - destruct (line !! 20%nat) as [f|] eqn:Hf; [|discriminate].
    destruct (strconv.Atoi f) as [recv|e] eqn:Hatoi.
    + intros H.
      assert (Hline : wellFormedRow line)
        by (exists recv; unfold parsedReceived; by rewrite Hf, Hatoi).
      destruct (String.eqb _ _); apply IH in H; destruct err; auto.
    + intros H. by injection H as <- <-.
Qed.

Lemma readFoodTruckData_loaded
    (fs : string -> csvSource) (filename : string)
    (trucks : list foodTruckInfo) :
  readFoodTruckData fs filename = Returned (trucks, None) ->
  exists header rows,
    fs filename = Lines (header :: rows) /\
    Forall wellFormedRow rows /\
    trucks = map recordOf (List.filter approved rows).
Proof.
  unfold readFoodTruckData.
  destruct (fs filename) as [e|e|[|header rows]] eqn:Hfile; try discriminate.
  intros Hrun. pose proof (readRows_returned _ _ _ _ Hrun) as Hrows.
  simpl in Hrows. rewrite readRows_wellFormed in Hrun by done.
  injection Hrun as <-. by exists header, rows.
Qed.

(** X1. A permit file with fewer than 21 columns and at least one data
    row makes [readFoodTruckData] panic on [line[20]] of the first data row:
    no records and no error are returned, whatever the rows hold.  The rows
    all have the field count of the header, as [csv.ReadAll] hands them
    over. *)
Theorem narrow_file_panics
    (fs : string -> csvSource) (filename : string) (header row : list string)
    (rows : list (list string)) :
  fs filename = Lines (header :: row :: rows) ->
  sameFieldCount header (row :: rows) ->
  (length header <= 20)%nat ->
  readFoodTruckData fs filename = Panicked (RuntimeError "index out of range").
Proof.
  intros Hfile Hsame Hnarrow. unfold readFoodTruckData. rewrite Hfile.
  apply Forall_cons in Hsame as [Hrow _]. simpl.
  by rewrite (proj2 (lookup_ge_None row 20%nat)) by lia.
Qed.

Lemma narrow_file_panics_witness :
  sameFieldCount (take 20 sampleHeader) (map (take 20) mixedRows) /\
  (length (take 20 sampleHeader) <= 20)%nat /\
  readFoodTruckData narrowFile "Mobile_Food_Facility_Permit.csv"
  = Panicked (RuntimeError "index out of range").
Proof.
  assert (Hsame : sameFieldCount (take 20 sampleHeader) (map (take 20) mixedRows))
    by (repeat constructor).
  assert (Hnarrow : (length (take 20 sampleHeader) <= 20)%nat) by (simpl; lia).
  split; [exact Hsame|]. split; [exact Hnarrow|].
  exact (narrow_file_panics narrowFile "Mobile_Food_Facility_Permit.csv"
           (take 20 sampleHeader) _ _ eq_refl Hsame Hnarrow).
Defined.

(** X2. In a file whose rows all have the field count of the header, the
    first data row whose freshness field [strconv.Atoi] rejects decides the
    outcome: the function returns the error of that row and no records, and
    the rows after it are not read, whatever their freshness fields hold. *)
Theorem first_rejected_row_decides
    (fs : string -> csvSource) (filename : string) (header : list string)
    (good rest : list (list string)) (bad : list string)
    (f : string) (err : error) :
  fs filename = Lines (header :: good ++ bad :: rest) ->
  sameFieldCount header (good ++ bad :: rest) ->
  Forall wellFormedRow good ->
  bad !! 20%nat = Some f ->
  strconv.Atoi f = inr err ->
  readFoodTruckData fs filename = Returned ([], Some err).
Proof.
  intros Hfile _ Hgood Hf Hatoi. unfold readFoodTruckData. rewrite Hfile.
  rewrite readRows_after_wellFormed by done. simpl. by rewrite Hf, Hatoi.
Qed.

Lemma first_rejected_row_decides_witness :
  sameFieldCount sampleHeader brokenRows /\
  strconv.Atoi "2014-01-01" = inr (NumError "Atoi" "2014-01-01") /\
  readFoodTruckData (permitFile brokenRows) "Mobile_Food_Facility_Permit.csv"
  = Returned ([], Some (NumError "Atoi" "2014-01-01")).
Proof.
  assert (Hsame : sameFieldCount sampleHeader brokenRows) by (repeat constructor).
  split; [exact Hsame|]. split; [reflexivity|].
  apply (first_rejected_row_decides (permitFile brokenRows)
           "Mobile_Food_Facility_Permit.csv" sampleHeader
           [sampleRow "Pretzel Cart" "APPROVED" "Soft Pretzels" "20150227"]
           [sampleRow "Noodle Van" "APPROVED" "Noodles" "20151231"]
           (sampleRow "Gone" "EXPIRED" "Burgers" "2014-01-01")
           "2014-01-01" (NumError "Atoi" "2014-01-01") eq_refl Hsame);
    [|reflexivity..].
  repeat constructor. vm_compute. eauto.
Defined.

(** X3. Whatever [readFoodTruckData] returns without error is well formed:
    every record has status ["APPROVED"] and a [Received] that fits a
    [uint], and there are no more records than data rows. *)
Theorem loaded_records_invariant
    (fs : string -> csvSource) (filename : string)
    (trucks : list foodTruckInfo) :
  readFoodTruckData fs filename = Returned (trucks, None) ->
  Forall (fun truck =>
            Status truck = "APPROVED" /\ 0 <= Received truck < 2 ^ 64) trucks
  /\ exists header rows,
       fs filename = Lines (header :: rows) /\
       trucks = map recordOf (List.filter approved rows) /\
       (length trucks <= length rows)%nat.
Proof.
  intros Hrun.
  destruct (readFoodTruckData_loaded fs filename trucks Hrun)
    as (header & rows & Hfile & Hrows & ->).
  split.
  - apply Forall_map, Forall_forall. intros line Hline.
    apply list_elem_of_In, filter_In in Hline as [_ Hline].
    split; [by apply String.eqb_eq in Hline|]. simpl.
    apply Z.mod_pos_bound. reflexivity.
  - exists header, rows. split; [done|]. split; [done|].
    rewrite length_map. apply List.filter_length_le.
Qed.

Lemma loaded_records_invariant_witness :
  Forall (fun truck =>
            Status truck = "APPROVED" /\ 0 <= Received truck < 2 ^ 64)
    (map recordOf (List.filter approved negativeRows)).
Proof.
  exact (proj1 (loaded_records_invariant (permitFile negativeRows)
                  "Mobile_Food_Facility_Permit.csv"
                  (map recordOf (List.filter approved negativeRows)) eq_refl)).
Defined.

(** X4. [readFoodTruckData] never returns records together with an error:
    whenever the error is not nil the list is empty, whether the file did
    not open, could not be read, or held a freshness field that does not
    parse after rows that were already kept. *)
Theorem error_comes_without_records
    (fs : string -> csvSource) (filename : string)
    (trucks : list foodTruckInfo) (err : error) :
  readFoodTruckData fs filename = Returned (trucks, Some err) ->
  trucks = [].
Proof.
  unfold readFoodTruckData.
  destruct (fs filename) as [e|e|[|header rows]]; try discriminate.
  - intros H. by injection H as <- _.
  - intros H. by injection H as <- _.
  - intros H. exact (readRows_returned _ _ _ _ H).
Qed.

Lemma error_comes_without_records_witness :
  readFoodTruckData (permitFile brokenRows) "missing.csv"
  = Returned ([], Some (OtherError "no such file or directory")) /\
  @nil foodTruckInfo = [].
Proof.
  split; [reflexivity|].
  exact (error_comes_without_records (permitFile brokenRows) "missing.csv" []
           (OtherError "no such file or directory") eq_refl).
Defined.

(** X5. [main] gets a dataset exactly when the permit file has a header row
    and every data row loads; the dataset is then the records of the
    approved rows in file order.  In every other case [main] panics before
    the router starts. *)
Theorem startup_succeeds_iff (fs : string -> csvSource) (trucks : list foodTruckInfo) :
  loadAtStartup fs = Returned trucks
  <-> exists header rows,
        fs "Mobile_Food_Facility_Permit.csv" = Lines (header :: rows) /\
        Forall wellFormedRow rows /\
        trucks = map recordOf (List.filter approved rows).
Proof.
  unfold loadAtStartup. split.
  - destruct (readFoodTruckData fs _) as [[l [e|]]|p] eqn:Hrun; try discriminate.
    intros H. injection H as ->.
    destruct (readFoodTruckData_loaded fs _ _ Hrun) as (header & rows & H1 & H2 & H3).
    by exists header, rows.
  - intros (header & rows & Hfile & Hrows & ->).
    unfold readFoodTruckData. rewrite Hfile.
    by rewrite readRows_wellFormed.
Qed.

(** * Further properties of the walking-distance filter *)

Section WalkableSteps.

Local Open Scope nat_scope.

Variables (d : distanceMatrixRetriever) (allTrucks : list foodTruckInfo).
Variables (lat lon : float64).

(** One turn of the request loop, for a batch that starts within the list. *)
Lemma requestLoop_step remaining i walkableTrucks tr :
  i * 25 <= length allTrucks ->
  requestLoop d allTrucks lat lon (S remaining) i walkableTrucks tr
  = let r := requestFor lat lon (batch allTrucks i) in
    match d tr r with
    | inr err => (Panicked (PanicError err), tr ++ [(r, inr err)])
    | inl resp =>
        match maps.Rows resp !! 0 with
        | None =>
            (Panicked (RuntimeError "index out of range"), tr ++ [(r, inl resp)])
        | Some row =>
            match elementsLoop allTrucks (i * 25) 0 (maps.Elements row)
                    walkableTrucks with
            | Panicked p => (Panicked p, tr ++ [(r, inl resp)])
            | Returned walkableTrucks' =>
                requestLoop d allTrucks lat lon remaining (S i) walkableTrucks'
                  (tr ++ [(r, inl resp)])
            end
        end
    end.
Proof.
  intros Hstart. simpl. change maxDestinationsPerRequest with 25.
  destruct (Nat.leb_spec (i * 25) (Nat.min (length allTrucks) (i * 25 + 25)));
    [|lia].
  by rewrite destinations_batch.
Qed.

Lemma requestLoop_requests remaining : forall i walkableTrucks tr,
  (i + remaining) * 25 < length allTrucks + 25 ->
  exists k,
    k <= remaining /\
    map fst (snd (requestLoop d allTrucks lat lon remaining i walkableTrucks tr))
    = map fst tr ++ map (requestFor lat lon) (batchesFrom allTrucks i k).
Proof.
  induction remaining as [|remaining IH]; intros i acc tr Hi.
  - exists 0. split; [done|]. simpl. by rewrite app_nil_r.
  - rewrite requestLoop_step by lia. cbv zeta.
    assert (Hone : forall (c : call),
              fst c = requestFor lat lon (batch allTrucks i) ->
              exists k, k <= S remaining /\
                map fst (tr ++ [c])
                = map fst tr ++ map (requestFor lat lon) (batchesFrom allTrucks i k)).
    { intros c Hc. exists 1. split; [lia|].
      rewrite map_app. simpl. by rewrite Hc. }
    destruct (d tr _) as [resp|err]; [|by apply Hone].
    destruct (maps.Rows resp !! 0) as [row|]; [|by apply Hone].
    destruct (elementsLoop _ _ _ _ _) as [acc'|p]; [|by apply Hone].
    destruct (IH (S i) acc' (tr ++ [(requestFor lat lon (batch allTrucks i),
                                     inl resp)])) as (k & Hk & Hreq); [lia|].
    exists (S k). split; [lia|]. rewrite Hreq, map_app, batchesFrom_S.
    simpl. by rewrite <- app_assoc.
Qed.

Lemma elementsLoop_members startIdx elems : forall v walkableTrucks walkableTrucks',
  elementsLoop allTrucks startIdx v elems walkableTrucks = Returned walkableTrucks' ->
  Forall (fun truck => In truck allTrucks) walkableTrucks ->
  Forall (fun truck => In truck allTrucks) walkableTrucks'.
Proof.
  induction elems as [|elem elems IH]; intros v acc acc'; simpl.
  - intros H. by injection H as <-.
  - destruct (withinWalk elem); [|by apply IH].
    destruct (allTrucks !! (startIdx + v)) as [truck|] eqn:Hlook; [|discriminate].
    intros Hloop Hacc. eapply IH; [exact Hloop|].
    apply Forall_app. split; [done|]. constructor; [|constructor].
    apply list_elem_of_In, list_elem_of_lookup. eauto.
Qed.

Lemma requestLoop_members remaining : forall i walkableTrucks tr walkable err,
  (i + remaining) * 25 < length allTrucks + 25 ->
  fst (requestLoop d allTrucks lat lon remaining i walkableTrucks tr)
  = Returned (walkable, err) ->
  Forall (fun truck => In truck allTrucks) walkableTrucks ->
  Forall (fun truck => In truck allTrucks) walkable.
Proof.
  induction remaining as [|remaining IH]; intros i acc tr walkable err Hi.
  - simpl. intros H. by injection H as <- _.
  - rewrite requestLoop_step by lia. cbv zeta.
    destruct (d tr _) as [resp|e]; [|discriminate].
    destruct (maps.Rows resp !! 0) as [row|]; [|discriminate].
    destruct (elementsLoop _ _ _ _ _) as [acc'|p] eqn:Hloop; [|discriminate].
    intros Hrun Hacc. eapply IH; [|exact Hrun|]; [lia|].
    by eapply elementsLoop_members.
Qed.

Lemma elementsLoop_overrun startIdx elems : forall v walkableTrucks j elem,
  elems !! j = Some elem ->
  withinWalk elem = true ->
  length allTrucks <= startIdx + v + j ->
  elementsLoop allTrucks startIdx v elems walkableTrucks
  = Panicked (RuntimeError "index out of range").
Proof.
  induction elems as [|e elems IH]; intros v acc j elem Hj Hwalk Hlen;
    [done|]. simpl.
  destruct j as [|j]; simpl in Hj.
  - injection Hj as ->. rewrite Hwalk.
    by rewrite (proj2 (lookup_ge_None allTrucks (startIdx + v))) by lia.
  - destruct (withinWalk e).
    + destruct (allTrucks !! (startIdx + v)); [|done].
      eapply IH; [exact Hj | exact Hwalk | lia].
    + eapply IH; [exact Hj | exact Hwalk | lia].
Qed.

End WalkableSteps.

Lemma numRequests_positive (n : nat) : (0 < n -> 0 < numRequests n)%nat.
Proof. pose proof (numRequests_bounds n). lia. Qed.

Lemma batchesFrom_prefix allTrucks i k n :
  (k <= n)%nat -> batchesFrom allTrucks i k `prefix_of` batchesFrom allTrucks i n.
Proof.
  intros Hk. exists (batchesFrom allTrucks (i + k) (n - k)).
  unfold batchesFrom. rewrite <- map_app, <- seq_app. do 2 f_equal. lia.
Qed.

(** X6. Whatever the retriever answers, [getWalkableTrucks] sends the
    batches in order and nothing else: the requests made are a prefix of the
    requests of the batches, so there are never more than [ceil(n/25)] calls,
    and every request made carries the one origin, between 1 and 25
    destinations and the walking mode. *)
Theorem requests_are_batch_prefix
    (d : distanceMatrixRetriever) (allTrucks : list foodTruckInfo)
    (lat lon : float64) :
  let sent := map fst (snd (getWalkableTrucks d allTrucks lat lon)) in
  sent `prefix_of` map (requestFor lat lon) (batches allTrucks)
  /\ (length sent <= numRequests (length allTrucks))%nat
  /\ Forall (fun r =>
               maps.Origins r = [(lat, lon)] /\
               maps.Mode r = "walking" /\
               (1 <= length (maps.Destinations r) <= 25)%nat) sent.
Proof.
  intros sent.
  assert (Hprefix : sent `prefix_of` map (requestFor lat lon) (batches allTrucks)).
  { unfold sent, getWalkableTrucks.
    destruct (requestLoop_requests d allTrucks lat lon
                (numRequests (length allTrucks)) 0 [] [])
      as (k & Hk & ->).
    - pose proof (numRequests_bounds (length allTrucks)). lia.
    - simpl. destruct (batchesFrom_prefix allTrucks 0 k _ Hk) as [rest Hrest].
      exists (map (requestFor lat lon) rest). unfold batches.
      by rewrite Hrest, map_app. }
  split; [exact Hprefix|]. split.
  - apply prefix_length in Hprefix.
    by rewrite length_map, length_batches in Hprefix.
  - destruct Hprefix as [rest Hrest].
    assert (Hall : Forall (fun r =>
               maps.Origins r = [(lat, lon)] /\
               maps.Mode r = "walking" /\
               (1 <= length (maps.Destinations r) <= 25)%nat)
               (map (requestFor lat lon) (batches allTrucks))).
    { apply Forall_map. eapply Forall_impl; [apply batches_sizes|].
      intros b Hb. simpl in *. rewrite length_map. split; [done|split; [done|lia]]. }
    rewrite Hrest in Hall. by apply Forall_app in Hall as [Hall _].
Qed.

(** X7. Whatever the retriever answers, a list returned by
    [getWalkableTrucks] holds candidates only: every truck in it is one of
    [allTrucks]. *)
Theorem walkable_are_candidates
    (d : distanceMatrixRetriever) (allTrucks : list foodTruckInfo)
    (lat lon : float64) (walkable : list foodTruckInfo) (err : option error) :
  fst (getWalkableTrucks d allTrucks lat lon) = Returned (walkable, err) ->
  Forall (fun truck => In truck allTrucks) walkable.
Proof.
  intros Hrun. unfold getWalkableTrucks in Hrun.
  eapply (requestLoop_members d allTrucks lat lon); [|exact Hrun|constructor].
  pose proof (numRequests_bounds (length allTrucks)). lia.
Qed.

Lemma walkable_are_candidates_witness :
  Forall (fun truck => In truck menuTrucks) [pretzelCart].
Proof.
  exact (walkable_are_candidates byDestination menuTrucks someLat someLon
           [pretzelCart] None eq_refl).
Defined.

Lemma retained_uniform (near : bool) (candidates : list foodTruckInfo) :
  forall elems,
    length elems = length candidates ->
    Forall (fun elem => withinWalk elem = near) elems ->
    retained candidates elems = if near then candidates else [].
Proof.
  induction candidates as [|truck candidates IH]; intros [|elem elems] Hlen Hall;
    simpl in *; try done; [by destruct near|].
  apply Forall_cons in Hall as [Helem Hall]. rewrite Helem, IH by (done || lia).
  by destruct near.
Qed.

(** X8. When every reply has one element per destination and all elements
    agree on being within walking distance, the filter is all or nothing:
    it returns the whole candidate list, in order, if they are within, and
    the empty list if they are not; no error either way. *)
Theorem uniform_replies_keep_all_or_none
    (d : distanceMatrixRetriever) (allTrucks : list foodTruckInfo)
    (lat lon : float64) (near : bool) :
  (forall tr r, exists row rows,
      d tr r = inl {| maps.Rows := row :: rows |} /\
      length (maps.Elements row) = length (maps.Destinations r) /\
      Forall (fun elem => withinWalk elem = near) (maps.Elements row)) ->
  fst (getWalkableTrucks d allTrucks lat lon)
  = Returned (if near then allTrucks else [], None).
Proof.
  intros Hd.
  assert (Hwf : wellFormedReplies d).
  { intros tr r. destruct (Hd tr r) as (row & rows & Hreply & Hlen & _).
    exists row, rows. split; [done|lia]. }
  rewrite (getWalkableTrucks_wellFormed d allTrucks lat lon Hwf). simpl.
  do 2 f_equal.
  assert (Hgen : forall bs tr,
    concat (zip_with retained bs
              (map replyElements (replay d (map (requestFor lat lon) bs) tr)))
    = if near then concat bs else []).
  { induction bs as [|b bs IH]; intros tr; simpl; [by destruct near|].
    destruct (Hd tr (requestFor lat lon b)) as (row & rows & Hreply & Hlen & Hall).
    rewrite Hreply. unfold replyElements at 1. simpl in *.
    rewrite length_map in Hlen.
    rewrite (retained_uniform near b _ Hlen Hall), IH. by destruct near. }
  rewrite Hgen. by rewrite concat_batches.
Qed.

Lemma uniform_replies_keep_all_or_none_witness :
  fst (getWalkableTrucks allNearby thirtyTrucks someLat someLon)
  = Returned (thirtyTrucks, None)
  /\ fst (getWalkableTrucks allFar thirtyTrucks someLat someLon)
     = Returned ([], None).
Proof.
  split.
  - apply (uniform_replies_keep_all_or_none allNearby thirtyTrucks someLat
             someLon true).
    intros tr r. eexists _, _. split; [reflexivity|]. simpl.
    rewrite length_map. split; [done|]. by apply Forall_map, Forall_true.
  - apply (uniform_replies_keep_all_or_none allFar thirtyTrucks someLat
             someLon false).
    intros tr r. eexists _, _. split; [reflexivity|]. simpl.
    rewrite length_map. split; [done|]. by apply Forall_map, Forall_true.
Defined.

(** X9. A reply without rows makes [getWalkableTrucks] panic on
    [resp.Rows[0]]: with at least one candidate and a first reply whose
    [Rows] is empty, the run ends in a run-time panic after that one call and
    returns nothing. *)
Theorem reply_without_rows_panics
    (d : distanceMatrixRetriever) (allTrucks : list foodTruckInfo)
    (lat lon : float64) :
  allTrucks <> [] ->
  d [] (requestFor lat lon (batch allTrucks 0)) = inl {| maps.Rows := [] |} ->
  getWalkableTrucks d allTrucks lat lon
  = (Panicked (RuntimeError "index out of range"),
     [(requestFor lat lon (batch allTrucks 0), inl {| maps.Rows := [] |})]).
Proof.
  intros Hne Hreply. unfold getWalkableTrucks.
  pose proof (numRequests_positive (length allTrucks)) as Hpos.
  destruct (numRequests (length allTrucks)) as [|remaining].
  - destruct allTrucks; [done|]. simpl in Hpos. lia.
  - rewrite requestLoop_step by (simpl; lia). cbv zeta. by rewrite Hreply.
Qed.

Lemma reply_without_rows_panics_witness :
  menuTrucks <> [] /\
  fst (getWalkableTrucks noRows menuTrucks someLat someLon)
  = Panicked (RuntimeError "index out of range").
Proof.
  assert (Hne : menuTrucks <> []) by discriminate.
  split; [exact Hne|].
  exact (f_equal fst (reply_without_rows_panics noRows menuTrucks someLat
                        someLon Hne eq_refl)).
Defined.

(** X10. A reply longer than the candidate list is not cut to size: with
    one batch of candidates (1 to 25 of them), an element within walking
    distance at an index beyond the last candidate makes the run panic on
    [allTrucks[startIdx+v]], losing the candidates already kept. *)
Theorem overlong_reply_panics
    (d : distanceMatrixRetriever) (allTrucks : list foodTruckInfo)
    (lat lon : float64) (row : maps.DistanceMatrixElementsRow)
    (rows : list maps.DistanceMatrixElementsRow)
    (j : nat) (elem : maps.DistanceMatrixElement) :
  (0 < length allTrucks <= 25)%nat ->
  d [] (requestFor lat lon (batch allTrucks 0))
  = inl {| maps.Rows := row :: rows |} ->
  maps.Elements row !! j = Some elem ->
  withinWalk elem = true ->
  (length allTrucks <= j)%nat ->
  fst (getWalkableTrucks d allTrucks lat lon)
  = Panicked (RuntimeError "index out of range").
Proof.
  intros Hlen Hreply Hj Hwalk Hbeyond. unfold getWalkableTrucks.
  pose proof (numRequests_positive (length allTrucks)) as Hpos.
  destruct (numRequests (length allTrucks)) as [|remaining]; [lia|].
  rewrite requestLoop_step by (simpl; lia). cbv zeta. rewrite Hreply. simpl.
  by rewrite (elementsLoop_overrun allTrucks 0 _ 0 [] j elem Hj Hwalk)
    by (simpl; lia).
Qed.

Lemma overlong_reply_panics_witness :
  (0 < length [pretzelCart] <= 25)%nat /\
  fst (getWalkableTrucks distanceMatrixRetrieverMock [pretzelCart] someLat someLon)
  = Panicked (RuntimeError "index out of range").
Proof.
  assert (Hlen : (0 < length [pretzelCart] <= 25)%nat) by (simpl; lia).
  split; [exact Hlen|].
  apply (overlong_reply_panics distanceMatrixRetrieverMock [pretzelCart] someLat
           someLon {| maps.Elements := [okElement 712; okElement 145] |} []
           1 (okElement 145) Hlen eq_refl eq_refl eq_refl).
  simpl. lia.
Defined.

Lemma requestLoop_mock (allTrucks : list foodTruckInfo) (lat lon : float64)
    (remaining : nat) :
  forall i walkableTrucks tr,
    ((i + remaining) * 25 < length allTrucks + 25)%nat ->
    Forall (fun b => (2 <= length b)%nat) (batchesFrom allTrucks i remaining) ->
    fst (requestLoop distanceMatrixRetrieverMock allTrucks lat lon remaining i
           walkableTrucks tr)
    = Returned (walkableTrucks
                ++ concat (map (take 2) (batchesFrom allTrucks i remaining)), None).
Proof.
  induction remaining as [|remaining IH]; intros i acc tr Hi Hall.
  - simpl. by rewrite app_nil_r.
  - rewrite batchesFrom_S in *. apply Forall_cons in Hall as [Hb Hall].
    rewrite requestLoop_step by lia. cbv zeta.
    unfold distanceMatrixRetrieverMock at 1.
    remember [okElement 712; okElement 145] as elems eqn:Helems. simpl.
    rewrite length_batch in Hb.
    rewrite elementsLoop_retained
      by (rewrite Nat.add_0_r, length_drop; subst elems; simpl; lia).
    rewrite IH by (done || lia). rewrite <- app_assoc. do 3 f_equal.
    rewrite Nat.add_0_r. unfold batch, maxDestinationsPerRequest.
    rewrite take_take. subst elems. simpl.
    destruct (drop (i * 25) allTrucks) as [|t1 [|t2 rest]] eqn:Hdrop;
      simpl; try done.
    by destruct rest.
Qed.

(** X11. The mock of the tests always answers with two elements within
    walking distance, so a search with distance keeps the first two
    candidates of every batch: when every batch has at least two candidates
    the result has twice as many records as there are batches (6 for the 60
    records of the fixture). *)
Theorem mock_keeps_two_per_batch
    (allTrucks : list foodTruckInfo) (lat lon : float64) :
  Forall (fun b => (2 <= length b)%nat) (batches allTrucks) ->
  exists walkable,
    fst (getWalkableTrucks distanceMatrixRetrieverMock allTrucks lat lon)
    = Returned (walkable, None) /\
    walkable = concat (map (take 2) (batches allTrucks)) /\
    length walkable = (2 * numRequests (length allTrucks))%nat.
Proof.
  intros Hall. eexists. split; [|split; [reflexivity|]].
  - unfold getWalkableTrucks. rewrite requestLoop_mock; [done| |done].
    pose proof (numRequests_bounds (length allTrucks)). lia.
  - rewrite <- length_batches. clear -Hall.
    induction Hall as [|b bs Hb Hbs IH]; [done|]. simpl.
    rewrite length_app, IH, length_take. lia.
Qed.

Lemma mock_keeps_two_per_batch_witness :
  Forall (fun b => (2 <= length b)%nat) (batches sixtyTrucks) /\
  exists walkable,
    fst (getWalkableTrucks distanceMatrixRetrieverMock sixtyTrucks someLat someLon)
    = Returned (walkable, None) /\
    walkable = concat (map (take 2) (batches sixtyTrucks)) /\
    length walkable = 6%nat.
Proof.
  assert (Hall : Forall (fun b => (2 <= length b)%nat) (batches sixtyTrucks))
    by (repeat constructor).
  split; [exact Hall|].
  exact (mock_keeps_two_per_batch sixtyTrucks someLat someLon Hall).
Defined.

(** * Further properties of the search pipeline *)

Lemma newestStep_Forall (sortSlice : sort.Sorter) (newestFirst : bool)
    (P : foodTruckInfo -> Prop) (results : list foodTruckInfo) :
  sort.Sorts sortSlice ->
  Forall P results -> Forall P (newestStep sortSlice newestFirst results).
Proof.
  intros Hsorts Hall. unfold newestStep. destruct newestFirst; [|done].
  eapply Permutation_Forall; [|exact Hall]. apply (Hsorts _ newer results).
Qed.

Lemma keywordStep_Forall (searchTerm : string) (searchList : list foodTruckInfo) :
  Forall (fun truck =>
            In truck searchList /\
            (searchTerm <> "" -> caselessSubstring searchTerm (FoodItems truck)))
    (keywordStep searchTerm searchList).
Proof.
  unfold keywordStep. apply Forall_forall. intros truck Htruck.
  apply list_elem_of_In in Htruck. destruct searchTerm as [|c term]; simpl in *.
  - by split.
  - apply filter_In in Htruck as [Hin Hserves].
    split; [done|]. intros _. by apply servesTerm_caseless.
Qed.

(** X12. Apart from the one path that sorts the caller's slice, a search
    leaves the base list as it was: with a search term, or with both
    coordinates non-zero, or without newest-first, the elements of
    [searchList] after the call are those before it, in the same order, also
    when the search panics. *)
Theorem base_list_kept_on_other_paths
    (sortSlice : sort.Sorter) (searchList : list foodTruckInfo)
    (d : distanceMatrixRetriever) (searchTerm : string)
    (lat lon : float64) (newestFirst : bool) :
  searchTerm <> "" \/ nonzero lat && nonzero lon = true \/ newestFirst = false ->
  searchListAfter
    (searchFoodTrucks sortSlice searchList d searchTerm lat lon newestFirst)
  = searchList.
Proof. apply searchList_kept. Qed.

Lemma base_list_kept_on_other_paths_witness :
  searchListAfter
    (searchFoodTrucks sort.insertionSort menuTrucks failsAfterFirst "pretzel"
       someLat someLon true)
  = menuTrucks.
Proof.
  apply (base_list_kept_on_other_paths sort.insertionSort menuTrucks
           failsAfterFirst "pretzel" someLat someLon true).
  left. discriminate.
Defined.

(** X13. A search never invents or mislabels a record.  For an ASCII
    search term and records whose [FoodItems] are ASCII, whatever the
    retriever answers, every record of a returned result is a record of the
    base list, and when a search term was given its [FoodItems] contain the
    term as a case-insensitive substring, also after the proximity and the
    recency steps. *)
Theorem results_come_from_base
    (sortSlice : sort.Sorter) (searchList : list foodTruckInfo)
    (d : distanceMatrixRetriever) (searchTerm : string)
    (lat lon : float64) (newestFirst : bool) (results : list foodTruckInfo) :
  sort.Sorts sortSlice ->
  strings.isASCII searchTerm = true ->
  Forall asciiItems searchList ->
  result (searchFoodTrucks sortSlice searchList d searchTerm lat lon newestFirst)
  = Returned results ->
  Forall (fun truck =>
            In truck searchList /\
            (searchTerm <> "" -> caselessSubstring searchTerm (FoodItems truck)))
    results.
Proof.
  intros Hsorts _ _ Hrun.
  pose proof (keywordStep_Forall searchTerm searchList) as Hkept.
  destruct (nonzero lat && nonzero lon) eqn:Hnz.
  - destruct (search_with_location sortSlice searchList d searchTerm lat lon
                newestFirst Hnz) as (_ & Hresult & _).
    rewrite Hresult in Hrun. clear Hresult.
    destruct (fst (getWalkableTrucks d (keywordStep searchTerm searchList) lat lon))
      as [[walkable err]|p] eqn:Hwalk; [|discriminate].
    injection Hrun as <-. apply newestStep_Forall; [done|].
    unfold getWalkableTrucks in Hwalk.
    assert (Hmem : Forall (fun truck => In truck (keywordStep searchTerm searchList))
                     walkable).
    { eapply (requestLoop_members d _ lat lon); [|exact Hwalk|constructor].
      pose proof (numRequests_bounds (length (keywordStep searchTerm searchList))).
      lia. }
    rewrite Forall_forall in *. intros truck Htruck.
    apply Hkept, list_elem_of_In, Hmem, Htruck.
  - destruct (search_without_location sortSlice searchList d searchTerm lat lon
                newestFirst Hnz) as (Hresult & _).
    rewrite Hresult in Hrun. injection Hrun as <-.
    by apply newestStep_Forall.
Qed.

Lemma results_come_from_base_witness :
  sort.Sorts sort.insertionSort /\
  strings.isASCII "pretzel" = true /\
  Forall asciiItems menuTrucks /\
  Forall (fun truck =>
            In truck menuTrucks /\
            ("pretzel" <> "" -> caselessSubstring "pretzel" (FoodItems truck)))
    [pretzelCart].
Proof.
  assert (Hitems : Forall asciiItems menuTrucks) by (repeat constructor).
  split; [exact insertionSort_Sorts|]. split; [reflexivity|].
  split; [exact Hitems|].
  exact (results_come_from_base sort.insertionSort menuTrucks byDestination
           "pretzel" someLat someLon true [pretzelCart] insertionSort_Sorts
           eq_refl Hitems eq_refl).
Defined.

Lemma keywordLoop_lower (term1 term2 : string) (searchList : list foodTruckInfo) :
  strings.ToLower term1 = strings.ToLower term2 ->
  forall results,
    keywordLoop term1 searchList results = keywordLoop term2 searchList results.
Proof.
  intros Hlower. induction searchList as [|truck l IH]; intros results; simpl;
    [done|].
  rewrite Hlower. by rewrite !IH.
Qed.

(** X14. The case of the search term does not matter: two non-empty terms
    that agree once lowered give the same run for every base list, retriever,
    location and ordering, that is the same result or panic, the same
    lookups and the same effect on the base list. *)
Theorem search_term_case_is_irrelevant
    (sortSlice : sort.Sorter) (searchList : list foodTruckInfo)
    (d : distanceMatrixRetriever) (term1 term2 : string)
    (lat lon : float64) (newestFirst : bool) :
  strings.ToLower term1 = strings.ToLower term2 ->
  term1 <> "" -> term2 <> "" ->
  searchFoodTrucks sortSlice searchList d term1 lat lon newestFirst
  = searchFoodTrucks sortSlice searchList d term2 lat lon newestFirst.
Proof.
  intros Hlower H1 H2. unfold searchFoodTrucks.
  rewrite (keywordLoop_lower term1 term2 searchList Hlower).
  destruct term1; [done|]. by destruct term2.
Qed.

Lemma search_term_case_is_irrelevant_witness :
  searchFoodTrucks sort.insertionSort menuTrucks byDestination "PreTzel"
    someLat someLon true
  = searchFoodTrucks sort.insertionSort menuTrucks byDestination "pretzel"
      someLat someLon true.
Proof.
  apply (search_term_case_is_irrelevant sort.insertionSort menuTrucks
           byDestination "PreTzel" "pretzel" someLat someLon true);
    [reflexivity | discriminate | discriminate].
Defined.

Lemma filter_nothing {A : Type} (f : A -> bool) (l : list A) :
  (forall x, In x l -> f x = false) -> List.filter f l = [].
Proof.
  induction l as [|x l IH]; intros Hnone; simpl; [done|].
  rewrite (Hnone x) by (by left). apply IH. intros y Hy. apply Hnone. by right.
Qed.

(** X15. An ASCII search term that none of the records, with ASCII
    [FoodItems], contains ends the search before the distance service is
    asked: for every location, retriever and ordering the result is the
    empty list, no lookup is made (so a failing service cannot make the
    search panic), and the base list is untouched. *)
Theorem unmatched_term_makes_no_lookup
    (sortSlice : sort.Sorter) (searchList : list foodTruckInfo)
    (d : distanceMatrixRetriever) (searchTerm : string)
    (lat lon : float64) (newestFirst : bool) :
  sort.Sorts sortSlice ->
  searchTerm <> "" ->
  strings.isASCII searchTerm = true ->
  Forall asciiItems searchList ->
  (forall truck, In truck searchList ->
                 ~ caselessSubstring searchTerm (FoodItems truck)) ->
  searchFoodTrucks sortSlice searchList d searchTerm lat lon newestFirst
  = {| result := Returned []; searchListAfter := searchList; calls := [] |}.
Proof.
  intros Hsorts Hterm _ _ Hnone. unfold searchFoodTrucks.
  rewrite keywordLoop_filter, filter_nothing.
  2:{ intros truck Hin. destruct (servesTerm searchTerm truck) eqn:Hserves;
        [|done].
      apply servesTerm_caseless in Hserves. by destruct (Hnone truck). }
  assert (Hsorted : sortSlice _ newer [] = []).
  { apply Permutation_nil. apply (Hsorts _ newer []). }
  destruct searchTerm; [done|]. simpl.
  destruct (nonzero lat && nonzero lon); simpl;
    destruct newestFirst; by rewrite ?Hsorted.
Qed.

Lemma unmatched_term_makes_no_lookup_witness :
  sort.Sorts sort.insertionSort /\
  strings.isASCII "sushi" = true /\
  Forall asciiItems menuTrucks /\
  searchFoodTrucks sort.insertionSort menuTrucks failsAfterFirst "sushi"
    someLat someLon true
  = {| result := Returned []; searchListAfter := menuTrucks; calls := [] |}.
Proof.
  assert (Hitems : Forall asciiItems menuTrucks) by (repeat constructor).
  split; [exact insertionSort_Sorts|]. split; [reflexivity|].
  split; [exact Hitems|].
  apply (unmatched_term_makes_no_lookup sort.insertionSort menuTrucks
           failsAfterFirst "sushi" someLat someLon true insertionSort_Sorts);
    [discriminate|reflexivity|exact Hitems|].
  intros truck Hin Hsub. apply servesTerm_caseless in Hsub.
  destruct Hin as [<-|[<-|[<-|[]]]]; discriminate.
Defined.

Lemma string_append_assoc (a b c : string) : (a +:+ b) +:+ c = a +:+ b +:+ c.
Proof.
  induction a as [|x a IH]; [done|].
  change (String x ((a +:+ b) +:+ c) = String x (a +:+ b +:+ c)).
  by rewrite IH.
Qed.

Lemma caselessSubstring_trans (term1 term2 s : string) :
  caselessSubstring term1 term2 -> caselessSubstring term2 s ->
  caselessSubstring term1 s.
Proof.
  intros (p & m & q & -> & Hm) (pre & mid & post & -> & Hmid).
  apply equalFold_ToLower in Hm, Hmid.
  rewrite !ToLower_append in Hmid.
  destruct (ToLower_split _ _ _ Hmid) as (p' & r & -> & _ & Hr).
  destruct (ToLower_split _ _ _ Hr) as (m' & q' & -> & Hm' & _).
  exists (pre +:+ p'), m', (q' +:+ post).
  split; [|apply equalFold_ToLower; congruence].
  by rewrite !string_append_assoc.
Qed.

Lemma filter_sublist_weaker {A : Type} (f g : A -> bool) (l : list A) :
  (forall x, f x = true -> g x = true) ->
  List.filter f l `sublist_of` List.filter g l.
Proof.
  intros Himp. induction l as [|x l IH]; simpl; [constructor|].
  destruct (f x) eqn:Hf.
  - rewrite (Himp x Hf). by constructor.
  - destruct (g x); [by constructor | done].
Qed.

Lemma filter_sublist_all {A : Type} (f : A -> bool) (l : list A) :
  List.filter f l `sublist_of` l.
Proof.
  induction l as [|x l IH]; simpl; [constructor|].
  destruct (f x); by constructor.
Qed.

(** X16. A longer search term narrows the result.  For ASCII terms and
    records whose [FoodItems] are ASCII: when [term1] occurs in [term2]
    (case ignored), every record kept for [term2] is kept for [term1], in
    the same order, so without a location the result for [term2] is a
    subsequence of the result for [term1]. *)
Theorem longer_term_narrows
    (sortSlice : sort.Sorter) (searchList : list foodTruckInfo)
    (d : distanceMatrixRetriever) (term1 term2 : string) (lat lon : float64) :
  strings.isASCII term1 = true ->
  strings.isASCII term2 = true ->
  Forall asciiItems searchList ->
  caselessSubstring term1 term2 ->
  nonzero lat && nonzero lon = false ->
  exists results1 results2,
    result (searchFoodTrucks sortSlice searchList d term1 lat lon false)
    = Returned results1 /\
    result (searchFoodTrucks sortSlice searchList d term2 lat lon false)
    = Returned results2 /\
    results2 `sublist_of` results1.
Proof.
  intros _ _ _ Hsub Hzero.
  exists (keywordStep term1 searchList), (keywordStep term2 searchList).
  split; [apply (search_without_location sortSlice searchList d term1 lat lon
                   false Hzero)|].
  split; [apply (search_without_location sortSlice searchList d term2 lat lon
                   false Hzero)|].
  unfold keywordStep. destruct term1 as [|c1 t1]; simpl.
  - destruct (0 <? String.length term2)%nat; [apply filter_sublist_all | done].
  - destruct term2 as [|c2 t2]; simpl.
    + destruct Hsub as (p & m & q & Heq & Hm).
      destruct p; [|discriminate]. destruct m; discriminate.
    + apply filter_sublist_weaker. intros truck Hserves.
      apply servesTerm_caseless. apply servesTerm_caseless in Hserves.
      by eapply caselessSubstring_trans.
Qed.

Lemma longer_term_narrows_witness :
  strings.isASCII "pretzel" = true /\
  strings.isASCII "Soft PRETZELS" = true /\
  Forall asciiItems menuTrucks /\
  caselessSubstring "pretzel" "Soft PRETZELS" /\
  exists results1 results2,
    result (searchFoodTrucks sort.insertionSort menuTrucks allNearby "pretzel"
              zero zero false) = Returned results1 /\
    result (searchFoodTrucks sort.insertionSort menuTrucks allNearby
              "Soft PRETZELS" zero zero false) = Returned results2 /\
    results2 `sublist_of` results1.
Proof.
  assert (Hsub : caselessSubstring "pretzel" "Soft PRETZELS")
    by (by exists "Soft ", "PRETZEL", "S").
  assert (Hitems : Forall asciiItems menuTrucks) by (repeat constructor).
  split; [reflexivity|]. split; [reflexivity|]. split; [exact Hitems|].
  split; [exact Hsub|].
  exact (longer_term_narrows sort.insertionSort menuTrucks allNearby "pretzel"
           "Soft PRETZELS" zero zero eq_refl eq_refl Hitems Hsub eq_refl).
Defined.

(** * Properties of the handler and of its use of the dataset *)

Lemma key_present (apiKey : string) :
  apiKey <> "" -> (String.length apiKey =? 0)%nat = false.
Proof. by destruct apiKey. Qed.

Lemma searchListAfter_cases
    (sortSlice : sort.Sorter) (searchList : list foodTruckInfo)
    (d : distanceMatrixRetriever) (searchTerm : string)
    (lat lon : float64) (newestFirst : bool) :
  let after :=
    searchListAfter
      (searchFoodTrucks sortSlice searchList d searchTerm lat lon newestFirst) in
  after = searchList \/ after = sortSlice _ newer searchList.
Proof.
  unfold searchFoodTrucks.
  destruct (if nonzero lat && nonzero lon then _ else _) as [[[|elems]|p] tr];
    destruct newestFirst; simpl; auto.
Qed.

Lemma foodTrucksAfter_cases (env : environment) (sortSlice : sort.Sorter)
    (foodTrucks : list foodTruckInfo) (params : gmap string (list string)) :
  let after := foodTrucksAfter (getFoodTrucks env sortSlice foodTrucks params) in
  after = foodTrucks \/ after = sortSlice _ newer foodTrucks.
Proof.
  unfold getFoodTrucks.
  destruct (parseLocation env params) as [[lat lon]|p]; simpl; [|by left].
  destruct (_ =? _)%nat; simpl; [by left|].
  destruct (NewClient env _) as [d|err]; simpl; [|by left].
  apply searchListAfter_cases.
Qed.

(** X17. A latitude without a longitude (or the reverse) is ignored, valid
    or not: when the two keys are not both present, [strconv.ParseFloat] is
    not consulted, no distance lookup is made, and with a key and a client
    the reply is 200 with the keyword result, sorted if [newest] is
    present. *)
Theorem lone_coordinate_is_ignored
    (env : environment) (sortSlice : sort.Sorter)
    (foodTrucks : list foodTruckInfo) (params : gmap string (list string))
    (d : distanceMatrixRetriever) :
  url.Has params "lat" && url.Has params "lon" = false ->
  Getenv env "GOOGLE_MAPS_API_KEY" <> "" ->
  NewClient env (Getenv env "GOOGLE_MAPS_API_KEY") = inl d ->
  let h := getFoodTrucks env sortSlice foodTrucks params in
  reply h
  = Returned {| status := 200;
                body := newestStep sortSlice (url.Has params "newest")
                          (keywordStep (url.Get params "search") foodTrucks) |}
  /\ lookups h = [].
Proof.
  intros Hlone Hkey Hclient h. unfold h, getFoodTrucks, parseLocation.
  rewrite Hlone, (key_present _ Hkey), Hclient. simpl.
  destruct (search_without_location sortSlice foodTrucks d
              (url.Get params "search") zero zero (url.Has params "newest")
              eq_refl) as [-> ->].
  done.
Qed.

Lemma lone_coordinate_is_ignored_witness :
  url.Has loneLat "lat" && url.Has loneLat "lon" = false /\
  reply (getFoodTrucks sampleEnv sort.insertionSort menuTrucks loneLat)
  = Returned {| status := 200; body := [pretzelCart; biteStand] |}.
Proof.
  split; [reflexivity|].
  refine (proj1 (lone_coordinate_is_ignored sampleEnv sort.insertionSort
                   menuTrucks loneLat allNearby eq_refl _ eq_refl)).
  discriminate.
Defined.

(** X18. Without [GOOGLE_MAPS_API_KEY] no request is answered, not even
    one that needs no distance lookup: the handler panics on every query,
    makes no lookup and leaves the dataset as it was. *)
Theorem without_key_nothing_is_served
    (env : environment) (sortSlice : sort.Sorter)
    (foodTrucks : list foodTruckInfo) (params : gmap string (list string)) :
  Getenv env "GOOGLE_MAPS_API_KEY" = "" ->
  let h := getFoodTrucks env sortSlice foodTrucks params in
  (exists p, reply h = Panicked p) /\
  (forall coordinates, parseLocation env params = Returned coordinates ->
   reply h = Panicked (PanicError missingKey)) /\
  foodTrucksAfter h = foodTrucks /\
  lookups h = [].
Proof.
  intros Hkey h. unfold h, getFoodTrucks. rewrite Hkey.
  destruct (parseLocation env params) as [[lat lon]|p]; simpl.
  - repeat split; eauto.
  - repeat split; eauto. intros coordinates H. discriminate.
Qed.

Lemma without_key_nothing_is_served_witness :
  reply (getFoodTrucks noKeyEnv sort.insertionSort menuTrucks noParams)
  = Panicked (PanicError missingKey).
Proof.
  exact (proj1 (proj2 (without_key_nothing_is_served noKeyEnv sort.insertionSort
                         menuTrucks noParams eq_refl)) (zero, zero) eq_refl).
Defined.

(** X19. With both [lat] and [lon] present, a value that
    [strconv.ParseFloat] rejects makes the handler panic with that error
    before the key is read or anything is searched: the latitude is parsed
    first, the longitude only when the latitude parsed. *)
Theorem malformed_coordinate_panics
    (env : environment) (sortSlice : sort.Sorter)
    (foodTrucks : list foodTruckInfo) (params : gmap string (list string))
    (err : error) :
  url.Has params "lat" = true ->
  url.Has params "lon" = true ->
  ParseFloat env (url.Get params "lat") = inr err
  \/ (exists lat, ParseFloat env (url.Get params "lat") = inl lat /\
                  ParseFloat env (url.Get params "lon") = inr err) ->
  getFoodTrucks env sortSlice foodTrucks params
  = {| reply := Panicked (PanicError err);
       foodTrucksAfter := foodTrucks;
       lookups := [] |}.
Proof.
  intros Hlat Hlon Hbad. unfold getFoodTrucks, parseLocation.
  rewrite Hlat, Hlon. simpl.
  destruct Hbad as [->|(lat & -> & ->)]; done.
Qed.

Lemma malformed_coordinate_panics_witness :
  getFoodTrucks sampleEnv sort.insertionSort menuTrucks badLat
  = {| reply := Panicked (PanicError (NumError "ParseFloat" "abc"));
       foodTrucksAfter := menuTrucks;
       lookups := [] |}.
Proof.
  apply (malformed_coordinate_panics sampleEnv sort.insertionSort menuTrucks
           badLat (NumError "ParseFloat" "abc") eq_refl eq_refl).
  left. reflexivity.
Defined.

(** X20. A request with [newest] and neither search term nor location
    reorders the dataset for good: it sorts the global [foodTrucks] in
    place, so that a later request without parameters is answered with the
    records in descending order of [Received] instead of file order. *)
Theorem newest_request_reorders_dataset
    (env : environment) (sortSlice : sort.Sorter)
    (foodTrucks : list foodTruckInfo)
    (first later : gmap string (list string)) (d : distanceMatrixRetriever) :
  sort.Sorts sortSlice ->
  Getenv env "GOOGLE_MAPS_API_KEY" <> "" ->
  NewClient env (Getenv env "GOOGLE_MAPS_API_KEY") = inl d ->
  url.Has first "newest" = true ->
  url.Get first "search" = "" ->
  url.Has first "lat" && url.Has first "lon" = false ->
  url.Has later "newest" = false ->
  url.Get later "search" = "" ->
  url.Has later "lat" && url.Has later "lon" = false ->
  let sorted := sortSlice _ newer foodTrucks in
  handleAll env sortSlice foodTrucks [first; later]
  = ([Returned {| status := 200; body := sorted |};
      Returned {| status := 200; body := sorted |}], sorted)
  /\ Permutation foodTrucks sorted
  /\ descending sorted.
Proof.
  intros Hsorts Hkey Hclient Hnewest Hsearch Hloc Hnewest' Hsearch' Hloc' sorted.
  split; [|by apply sorted_newest_first].
  assert (Hfirst : getFoodTrucks env sortSlice foodTrucks first
                   = {| reply := Returned {| status := 200; body := sorted |};
                        foodTrucksAfter := sorted; lookups := [] |}).
  { unfold getFoodTrucks, parseLocation.
    by rewrite Hloc, (key_present _ Hkey), Hclient, Hnewest, Hsearch. }
  assert (Hlater : getFoodTrucks env sortSlice sorted later
                   = {| reply := Returned {| status := 200; body := sorted |};
                        foodTrucksAfter := sorted; lookups := [] |}).
  { unfold getFoodTrucks, parseLocation.
    by rewrite Hloc', (key_present _ Hkey), Hclient, Hnewest', Hsearch'. }
  cbn [handleAll]. rewrite Hfirst. cbn [foodTrucksAfter reply].
  by rewrite Hlater.
Qed.

Lemma newest_request_reorders_dataset_witness :
  handleAll sampleEnv sort.insertionSort olderThenNewer [newestOnly; noParams]
  = ([Returned {| status := 200; body := rev olderThenNewer |};
      Returned {| status := 200; body := rev olderThenNewer |}],
     rev olderThenNewer).
Proof.
  refine (proj1 (newest_request_reorders_dataset sampleEnv sort.insertionSort
                   olderThenNewer newestOnly noParams allNearby
                   insertionSort_Sorts _ eq_refl eq_refl eq_refl eq_refl
                   eq_refl eq_refl eq_refl)).
  discriminate.
Defined.

(** X21. Requests never add, drop or change a record of the dataset: after
    any sequence of requests, answered or panicking, the global
    [foodTrucks] is a rearrangement of what it was, and there is one reply
    or panic per request. *)
Theorem requests_only_permute_dataset
    (env : environment) (sortSlice : sort.Sorter)
    (requests : list (gmap string (list string)))
    (foodTrucks : list foodTruckInfo) :
  sort.Sorts sortSlice ->
  Permutation foodTrucks (snd (handleAll env sortSlice foodTrucks requests))
  /\ length (fst (handleAll env sortSlice foodTrucks requests)) = length requests.
Proof.
  intros Hsorts. revert foodTrucks.
  induction requests as [|params requests IH]; intros foodTrucks; simpl;
    [done|].
  destruct (IH (foodTrucksAfter (getFoodTrucks env sortSlice foodTrucks params)))
    as [Hperm Hlen].
  split; [|by rewrite Hlen].
  rewrite <- Hperm.
  destruct (foodTrucksAfter_cases env sortSlice foodTrucks params) as [->| ->];
    [done|].
  apply (Hsorts _ newer foodTrucks).
Qed.

Lemma requests_only_permute_dataset_witness :
  sort.Sorts sort.insertionSort /\
  Permutation menuTrucks
    (snd (handleAll sampleEnv sort.insertionSort menuTrucks
            [newestOnly; badLat; loneLat; noParams])).
Proof.
  split; [exact insertionSort_Sorts|].
  exact (proj1 (requests_only_permute_dataset sampleEnv sort.insertionSort
                  [newestOnly; badLat; loneLat; noParams] menuTrucks
                  insertionSort_Sorts)).
Defined.

(** * The freshness of a loaded record *)

(** X22. The [Received] of a loaded record is the freshness number of its
    row when that number is not negative, and the number plus [2^64] when it
    is negative; the number itself always fits an [int]. *)
Theorem received_of_freshness (line : list string) (recv : Z) :
  parsedReceived line = Some recv ->
  (- 2 ^ 63 <= recv < 2 ^ 63)%Z /\
  Received (recordOf line) = (if (recv <? 0)%Z then (recv + 2 ^ 64)%Z else recv).
Proof.
  intros Hrecv. unfold recordOf. rewrite Hrecv. simpl.
  unfold parsedReceived in Hrecv.
  destruct (line !! 20%nat) as [f|]; [|discriminate].
  destruct (strconv.Atoi f) as [n|e] eqn:Hatoi; [|discriminate].
  injection Hrecv as ->. apply Atoi_range in Hatoi.
  unfold int_min, int_max in Hatoi. split; [lia|].
  unfold uint_of_int, uint_modulus.
  destruct (Z.ltb_spec recv 0).
  - symmetry. apply (Z.mod_unique recv (2 ^ 64) (-1)); lia.
  - apply Z.mod_small. lia.
Qed.

Lemma received_of_freshness_witness :
  Received (recordOf (sampleRow "Noodle Van" "APPROVED" "Noodles" "20151231"))
  = 20151231.
Proof.
  exact (proj2 (received_of_freshness
                  (sampleRow "Noodle Van" "APPROVED" "Noodles" "20151231")
                  20151231 eq_refl)).
Defined.
